(** * The Aria execution loop (core/execution_loop.py) in Rocq

    A shallow embedding of [AriaExecutionLoop]: the validators, the two
    sandbox back ends, the test harness, the fix requests, the refinement
    loop [perfect_loop] and the verdict parser of
    [aria_analyzes_trinity_suggestions], together with [AriaAgent.chat]
    (core/agent.py), the capability every fix request goes through.

    Python [str] values are modelled as byte strings ([string]); on ASCII
    text the operations below coincide with Python's.  Python dictionaries
    with a fixed set of keys become records, dictionaries with free keys
    (the reviewers' suggestions) become [gmap string string].  Calls that
    leave the interpreter (parser, formatters, language model, processes,
    containers, temporary names) are oracles collected in [Env]. *)

From Stdlib Require Import ZArith String Ascii List Lia Bool DecimalString.
From stdpp Require Import gmap strings list.

Local Open Scope Z_scope.

#[local] Arguments String.append s1 s2 : simpl nomatch.

(** ** Python string operations *)

Module PyStr.

Definition nl : string := String "010"%char "".

(** [s.startswith(p)] *)
Definition startswith (s p : string) : bool := String.prefix p s.

(** [p in s] *)
Fixpoint contains (p s : string) : bool :=
  String.prefix p s ||
  match s with
  | EmptyString => false
  | String _ s' => contains p s'
  end.

(** ["\n".join(l)] and friends *)
Fixpoint join (sep : string) (l : list string) : string :=
  match l with
  | [] => ""
  | [x] => x
  | x :: rest => x +:+ sep +:+ join sep rest
  end.

(** [s.split(c)] for a one-character separator *)
Fixpoint split (c : ascii) (s : string) : list string :=
  match s with
  | EmptyString => [""]
  | String a s' =>
      if Ascii.eqb a c then "" :: split c s'
      else match split c s' with
           | [] => [String a ""]
           | w :: ws => String a w :: ws
           end
  end.

(** [s.split(c, 1)]: the text before the first [c] and, when there is
    one, the text after it *)
Fixpoint split1 (c : ascii) (s : string) : string * option string :=
  match s with
  | EmptyString => ("", None)
  | String a s' =>
      if Ascii.eqb a c then ("", Some s')
      else let '(h, t) := split1 c s' in (String a h, t)
  end.

(** Python's white space among the ASCII characters: tab, line feed,
    vertical tab, form feed, carriage return, the four separators
    0x1c-0x1f and the blank. *)
Definition is_space (a : ascii) : bool :=
  let n := nat_of_ascii a in
  ((9 <=? n)%nat && (n <=? 13)%nat) || ((28 <=? n)%nat && (n <=? 32)%nat).

Fixpoint lstrip (s : string) : string :=
  match s with
  | EmptyString => ""
  | String a s' => if is_space a then lstrip s' else s
  end.

Fixpoint rstrip (s : string) : string :=
  match s with
  | EmptyString => ""
  | String a s' =>
      match rstrip s' with
      | EmptyString => if is_space a then "" else String a ""
      | r => String a r
      end
  end.

(** [s.strip()] *)
Definition strip (s : string) : string := rstrip (lstrip s).

(** [s.replace(old, "")] for a non-empty [old]: every occurrence found
    scanning from the left is dropped. [skip] counts the characters of
    the occurrence in progress that are still to be dropped. *)
Fixpoint remove_from (old : string) (skip : nat) (s : string) : string :=
  match s with
  | EmptyString => ""
  | String a s' =>
      match skip with
      | S k => remove_from old k s'
      | O => if String.prefix old s
             then remove_from old (String.length old - 1) s'
             else String a (remove_from old O s')
      end
  end.

Definition remove (old s : string) : string :=
  match old with
  | EmptyString => s
  | _ => remove_from old O s
  end.

(** [s.lower()] on ASCII letters *)
Definition lower_char (a : ascii) : ascii :=
  let n := nat_of_ascii a in
  if ((65 <=? n)%nat && (n <=? 90)%nat) then ascii_of_nat (n + 32) else a.

Fixpoint lower (s : string) : string :=
  match s with
  | EmptyString => ""
  | String a s' => String (lower_char a) (lower s')
  end.

(** [s[:n]] *)
Definition take (n : nat) (s : string) : string := String.substring 0 n s.

(** [int(s)] on a stripped ASCII text: an optional sign, then decimal
    digits in which single underscores may separate digits.  [None]
    stands for the [ValueError] Python raises. *)
Definition digit (a : ascii) : option Z :=
  let n := nat_of_ascii a in
  if ((48 <=? n)%nat && (n <=? 57)%nat) then Some (Z.of_nat (n - 48)) else None.

(** [digits acc prev s]: [prev] tells whether the previous character was
    a digit (an underscore is accepted only between two digits). *)
Fixpoint digits (acc : Z) (prev : bool) (s : string) : option Z :=
  match s with
  | EmptyString => if prev then Some acc else None
  | String a s' =>
      match digit a with
      | Some d => digits (10 * acc + d) true s'
      | None =>
          if Ascii.eqb a "_"%char && prev
          then match s' with
               | EmptyString => None
               | String b _ => match digit b with
                               | Some _ => digits acc false s'
                               | None => None
                               end
               end
          else None
      end
  end.

Definition int (s : string) : option Z :=
  match strip s with
  | String "-"%char r => Z.opp <$> digits 0 false r
  | String "+"%char r => digits 0 false r
  | r => digits 0 false r
  end.

End PyStr.

(** ** Values, exceptions and the outside world *)

(** A Python exception: its class name and [str(e)]. *)
Record exn := mk_exn { exn_class : string; exn_str : string }.

(** The outcome of a Python call: a value, or an exception on its way up. *)
Inductive res (A : Type) : Type :=
| Ret (a : A)
| Raise (e : exn).
Arguments Ret {A} a.
Arguments Raise {A} e.

(** What [ast.parse] does with a source text. [except SyntaxError] catches
    the second outcome only. *)
Inductive parse_outcome :=
| Parsed
| RaisesSyntaxError (lineno : option Z) (msg : string) (text : option string)
| RaisesOther (e : exn).

(** What [await aria_agent.chat(prompt)] hands back: the code tests
    [isinstance(result, str)] and otherwise calls [result.get]. *)
Inductive chat_value :=
| ChatStr (s : string)
| ChatDict (d : gmap string string)
| ChatNone.

(** [subprocess.run(..., capture_output=True, text=True, timeout=t)] *)
Inductive proc_outcome :=
| Completed (returncode : Z) (stdout stderr : string)
| TimeoutExpired
| ProcError (e : exn).

(** [containers.run(..., detach=True)], [container.wait(timeout=10)],
    [container.logs()] and [container.remove()] taken together: the
    container exits within the time limit, or [wait] gives up after ten
    seconds with the client library's time-out exception, or one of the
    four calls fails otherwise. *)
Inductive docker_outcome :=
| Exited (status_code : Z) (logs : string)
| WaitTimedOut (e : exn)
| DockerError (e : exn).

(** The oracles. Those that may answer differently from call to call take
    the number of external calls made so far. *)
Record Env := {
  ast_parse : string -> parse_outcome;
  black_format_str : string -> res string;
  autopep8_fix_code : string -> res string;
  agent_chat : nat -> string -> res chat_value;
  tmp_name : nat -> string;
  (** [Some e] when writing the text through a text-mode file raises [e]
      (a character the default encoding cannot represent) *)
  write_error : string -> option exn;
  subprocess_run : nat -> list string -> option string -> gmap string string -> proc_outcome;
  docker_run : nat -> string -> gmap string string -> docker_outcome;
  (** [time.time()], in milliseconds *)
  time_time : nat -> Z;
}.

(** The part of the world the code reads and changes: the files that
    exist, the number of external calls made, and the prompts the
    language model has received. *)
Record World := {
  files : gmap string string;
  clock : nat;
  prompts : list string;
}.

Definition tick (w : World) : World :=
  {| files := files w; clock := S (clock w); prompts := prompts w |}.

Definition set_files (f : gmap string string) (w : World) : World :=
  {| files := f; clock := clock w; prompts := prompts w |}.

(** ** Validators *)

Record syntax_error := {
  se_line : option Z;
  se_message : string;
  se_text : option string;
}.

(** [{"valid": True}] carries no ["errors"] key; the loop reads the key
    only when [valid] is false. *)
Record syntax_result := {
  valid : bool;
  syn_errors : list syntax_error;
}.

Definition validate_syntax (env : Env) (code : string) : res syntax_result :=
  match ast_parse env code with
  | Parsed => Ret {| valid := true; syn_errors := [] |}
  | RaisesSyntaxError lineno msg text =>
      Ret {| valid := false;
             syn_errors := [ {| se_line := lineno; se_message := msg; se_text := text |} ] |}
  | RaisesOther e => Raise e
  end.

Record static_issue := {
  si_type : string;
  si_message : string;
}.

(** One formatter check of [static_analysis]: an issue when the formatter
    returns a different text, nothing when it returns the same text or
    raises (bare [except: pass]). *)
Definition formatter_issue (fmt : string -> res string) (code : string)
    (issue : static_issue) : list static_issue :=
  match fmt code with
  | Ret formatted => if String.eqb formatted code then [] else [issue]
  | Raise _ => []
  end.

Definition static_analysis (env : Env) (code : string) : list static_issue :=
  formatter_issue (black_format_str env) code
    {| si_type := "formatting"; si_message := "Code needs formatting" |}
  ++ formatter_issue (autopep8_fix_code env) code
    {| si_type := "style"; si_message := "PEP8 style issues" |}.

Record vulnerability := {
  pattern : string;
  message : string;
  severity : string;
}.

Definition dangerous_patterns : list (string * string) :=
  [ ("exec(", "Use of exec is dangerous");
    ("eval(", "Use of eval is dangerous");
    ("__import__", "Dynamic imports can be dangerous");
    ("os.system", "Direct system calls are dangerous");
    ("subprocess.call(shell=True", "Shell injection vulnerability");
    ("pickle.loads", "Pickle can execute arbitrary code");
    ("yaml.load(", "Use yaml.safe_load instead") ].

Fixpoint scan_patterns (patterns : list (string * string)) (code : string)
    : list vulnerability :=
  match patterns with
  | [] => []
  | (pat, msg) :: rest =>
      if PyStr.contains pat code
      then {| pattern := pat; message := msg; severity := "high" |} :: scan_patterns rest code
      else scan_patterns rest code
  end.

Definition security_scan (code : string) : list vulnerability :=
  scan_patterns dangerous_patterns code.

(** ** State and exceptions

    A computation over a state [S]: it ends with a value or an exception
    and leaves a state behind in both cases. *)

Definition M (S A : Type) : Type := S -> res A * S.

Definition ret {S A} (a : A) : M S A := fun s => (Ret a, s).

Definition raise {S A} (e : exn) : M S A := fun s => (Raise e, s).

Definition bind {S A B} (m : M S A) (k : A -> M S B) : M S B :=
  fun s => match m s with
           | (Ret a, s') => k a s'
           | (Raise e, s') => (Raise e, s')
           end.

(** [try: body finally: cleanup] *)
Definition try_finally {S A} (body : M S A) (cleanup : M S unit) : M S A :=
  fun s => match body s with
           | (r, s') => match cleanup s' with
                        | (Ret _, s'') => (r, s'')
                        | (Raise e, s'') => (Raise e, s'')
                        end
           end.

Declare Scope py_scope.
Delimit Scope py_scope with py.
Notation "x <- m ;; k" := (bind m (fun x => k))
  (at level 100, m at next level, right associativity) : py_scope.
Notation "m ;;; k" := (bind m (fun _ => k))
  (at level 100, right associativity) : py_scope.
Local Open Scope py_scope.

Definition W (A : Type) : Type := M World A.

(** ** Sandbox, test harness and fix requests *)

Record exec_result := {
  success : bool;
  exec_output : option string;
  exec_errors : option string;
  exec_time : option Z;
}.

Record test_result := {
  all_pass : bool;
  count : Z;
  failures : list string;
  test_output : option string;
}.

Definition str_of_int (z : Z) : string := NilEmpty.string_of_int (Z.to_int z).

(** [str(x)] for an [int] or [None] *)
Definition str_of_line (l : option Z) : string :=
  match l with
  | Some z => str_of_int z
  | None => "None"
  end.

(** The eight blanks that indent the body of every prompt. *)
Definition ind : string := "        ".

Definition timeout_message : string := "Code execution timeout (infinite loop?)".

Section Sandbox.

Variable env : Env.

(** [await aria_agent.chat(prompt)] *)
Definition chat (prompt : string) : W chat_value :=
  fun w => (agent_chat env (clock w) prompt,
            {| files := files w; clock := S (clock w); prompts := prompts w ++ [prompt] |}).

(** [tempfile.NamedTemporaryFile(mode='w', suffix='.py', delete=False)]:
    the file exists, empty, under the name the system picked. *)
Definition named_temporary_file : W string :=
  fun w => let p := tmp_name env (clock w) in
           (Ret p, tick (set_files (<[p := ""]> (files w)) w)).

(** [f.write(text)] and [Path.write_text(text)] *)
Definition write_text (path text : string) : W unit :=
  fun w => match write_error env text with
           | Some e => (Raise e, w)
           | None => (Ret tt, set_files (<[path := text]> (files w)) w)
           end.

(** [Path(path).unlink(missing_ok=True)] *)
Definition unlink (path : string) : W unit :=
  fun w => (Ret tt, set_files (delete path (files w)) w).

Definition execute_in_subprocess (filepath : string) : W exec_result :=
  fun w =>
    let start_time := time_time env (clock w) in
    (Ret match subprocess_run env (clock w) ["python"; filepath] None (files w) with
         | Completed returncode stdout stderr =>
             let execution_time := time_time env (S (clock w)) - start_time in
             if returncode =? 0
             then {| success := true; exec_output := Some stdout;
                     exec_errors := None; exec_time := Some execution_time |}
             else {| success := false; exec_output := Some stdout;
                     exec_errors := Some stderr; exec_time := None |}
         | TimeoutExpired =>
             {| success := false; exec_output := None;
                exec_errors := Some timeout_message; exec_time := None |}
         | ProcError e =>
             {| success := false; exec_output := None;
                exec_errors := Some (exn_str e); exec_time := None |}
         end, tick w).

Definition execute_in_docker (filepath : string) : W exec_result :=
  fun w =>
    (Ret match docker_run env (clock w) filepath (files w) with
         | Exited status_code logs =>
             {| success := status_code =? 0;
                exec_output := Some (if status_code =? 0 then logs else "");
                exec_errors := Some (if negb (status_code =? 0) then logs else "");
                exec_time := None |}
         | WaitTimedOut e | DockerError e =>
             {| success := false; exec_output := None;
                exec_errors := Some ("Docker execution failed: " +:+ exn_str e);
                exec_time := None |}
         end, tick w).

(** [docker_client] is [self.docker_client is not None]. The [finally]
    clause starts after the [with] block that creates and writes the
    file. *)
Definition execute_code (docker_client : bool) (code filename : string) : W exec_result :=
  temp_path <- (f <- named_temporary_file ;; write_text f code ;;; ret f) ;;
  try_finally
    (if docker_client then execute_in_docker temp_path
     else execute_in_subprocess temp_path)
    (unlink temp_path).

Definition generate_tests (code task : string) : W chat_value :=
  let test_prompt := PyStr.join PyStr.nl
    [ "";
      ind +:+ "Generate comprehensive pytest tests for this code:";
      "";
      ind +:+ PyStr.take 1000 code +:+ "  # First 1000 chars";
      "";
      ind +:+ "Original task: " +:+ task;
      "";
      ind +:+ "Include:";
      ind +:+ "1. Happy path tests";
      ind +:+ "2. Edge cases";
      ind +:+ "3. Error cases";
      ind +:+ "4. Performance tests";
      ind +:+ "5. Security tests";
      "";
      ind +:+ "Return ONLY the test code.";
      ind ] in
  chat test_prompt.

(** [tempfile.TemporaryDirectory()]: a directory is an entry of its own;
    what lies in it has the directory's name and a slash as prefix. *)
Definition under (dir path : string) : bool :=
  String.eqb path dir || PyStr.startswith path (dir +:+ "/").

Definition mkdtemp : W string :=
  fun w => let d := tmp_name env (clock w) in
           (Ret d, tick (set_files (<[d := ""]> (files w)) w)).

Definition rmtree (dir : string) : W unit :=
  fun w => (Ret tt, set_files (filter (fun kv => under dir kv.1 = false) (files w)) w).

(** [with tempfile.TemporaryDirectory() as tmpdir: body] *)
Definition with_temporary_directory {A} (body : string -> W A) : W A :=
  tmpdir <- mkdtemp ;; try_finally (body tmpdir) (rmtree tmpdir).

(** [not tests] *)
Definition falsy (v : chat_value) : bool :=
  match v with
  | ChatStr s => String.eqb s ""
  | ChatDict d => bool_decide (d = ∅)
  | ChatNone => true
  end.

Definition pytest_timeout (test_path : string) : exn :=
  mk_exn "TimeoutExpired"
    ("Command '['pytest', '" +:+ test_path +:+ "', '-v']' timed out after 30 seconds").

Definition run_pytest (tmpdir test_path : string) : W test_result :=
  fun w =>
    (Ret match subprocess_run env (clock w) ["pytest"; test_path; "-v"] (Some tmpdir) (files w) with
         | Completed returncode stdout stderr =>
             let all_pass := returncode =? 0 in
             let lines := PyStr.split "010"%char stdout in
             {| all_pass := all_pass;
                count := Z.of_nat (length (filter (fun l => PyStr.contains "passed" (PyStr.lower l) = true) lines));
                failures := if all_pass then []
                            else filter (fun l => PyStr.contains "FAILED" l = true) lines;
                test_output := Some stdout |}
         | TimeoutExpired =>
             {| all_pass := false; count := 0;
                failures := [exn_str (pytest_timeout test_path)]; test_output := None |}
         | ProcError e =>
             {| all_pass := false; count := 0;
                failures := [exn_str e]; test_output := None |}
         end, tick w).

Definition run_tests (code : string) (tests : chat_value) : W test_result :=
  if falsy tests
  then ret {| all_pass := true; count := 0; failures := []; test_output := None |}
  else
    with_temporary_directory (fun tmpdir =>
      let module_path := tmpdir +:+ "/module.py" in
      let test_path := tmpdir +:+ "/test_module.py" in
      write_text module_path code ;;;
      (match tests with
       | ChatStr t => write_text test_path t
       | _ => raise (mk_exn "TypeError" "data must be str")
       end) ;;;
      run_pytest tmpdir test_path).

(** [result if isinstance(result, str) else result.get("response", code)] *)
Definition fixed_code (result : chat_value) (code : string) : W string :=
  match result with
  | ChatStr s => ret s
  | ChatDict d => ret (default code (d !! "response"))
  | ChatNone => raise (mk_exn "AttributeError" "'NoneType' object has no attribute 'get'")
  end.

Definition fix_syntax (code : string) (errors : list syntax_error) : W string :=
  let error_description := PyStr.join PyStr.nl
    (map (fun e => "Line " +:+ str_of_line (se_line e) +:+ ": " +:+ se_message e) errors) in
  let fix_prompt := PyStr.join PyStr.nl
    [ "";
      ind +:+ "Fix these syntax errors in the code:";
      "";
      ind +:+ "Errors:";
      ind +:+ error_description;
      "";
      ind +:+ "Code:";
      ind +:+ code;
      "";
      ind +:+ "Return ONLY the fixed code, no explanation.";
      ind ] in
  result <- chat fix_prompt ;; fixed_code result code.

Definition fix_runtime_errors (code errors task : string) : W string :=
  let fix_prompt := PyStr.join PyStr.nl
    [ "";
      ind +:+ "The code has runtime errors. Fix them.";
      "";
      ind +:+ "Original task: " +:+ task;
      "";
      ind +:+ "Runtime errors:";
      ind +:+ errors;
      "";
      ind +:+ "Current code:";
      ind +:+ code;
      "";
      ind +:+ "Return ONLY the fixed code.";
      ind ] in
  result <- chat fix_prompt ;; fixed_code result code.

Definition fix_test_failures (code : string) (failures : list string) : W string :=
  let failures_text := PyStr.join PyStr.nl failures in
  let fix_prompt := PyStr.join PyStr.nl
    [ "";
      ind +:+ "The code fails these tests. Fix it.";
      "";
      ind +:+ "Test failures:";
      ind +:+ failures_text;
      "";
      ind +:+ "Current code:";
      ind +:+ code;
      "";
      ind +:+ "Return ONLY the fixed code.";
      ind ] in
  result <- chat fix_prompt ;; fixed_code result code.

Definition fix_security_issues (code : string) (vulnerabilities : list vulnerability) : W string :=
  let vuln_text := PyStr.join PyStr.nl
    (map (fun v => pattern v +:+ ": " +:+ message v) vulnerabilities) in
  let fix_prompt := PyStr.join PyStr.nl
    [ "";
      ind +:+ "Fix these security vulnerabilities:";
      "";
      ind +:+ vuln_text;
      "";
      ind +:+ "Current code:";
      ind +:+ code;
      "";
      ind +:+ "Return ONLY the secure version of the code.";
      ind ] in
  result <- chat fix_prompt ;; fixed_code result code.

(** The language model is not consulted and [issues] is not read: the
    code is reformatted in place. An exception of either formatter
    leaves [code] as the assignments made it so far. *)
Definition fix_static_issues (code : string) (issues : list static_issue) : W string :=
  ret match black_format_str env code with
      | Ret blackened =>
          match autopep8_fix_code env blackened with
          | Ret pep8 => pep8
          | Raise _ => blackened
          end
      | Raise _ => code
      end.

End Sandbox.

(** ** [AriaAgent.chat] (core/agent.py)

    The model behind the agent (NVIDIA NIM, or Ollama as fallback) answers
    with a text, or with a JSON null where a text was expected, or its
    client raises.  Everything from the request to the [return] sits in
    one [try] whose handler turns any exception into a text. The
    conversation history only feeds the request and is left out. *)
Definition AriaAgent_chat (backend : nat -> string -> res (option string))
    (n : nat) (user_message : string) : res chat_value :=
  match backend n user_message with
  | Ret (Some response) => Ret (ChatStr response)
  | Ret None => Ret (ChatStr ("Error: " +:+ "'NoneType' object is not subscriptable"))
  | Raise e => Ret (ChatStr ("Error: " +:+ exn_str e))
  end.

(** ** The refinement loop *)

Inductive gate := Syntax | Static | Execution | Tests | Security.

(** What an observer of [perfect_loop] sees: the verdict of a gate once
    it has been evaluated, and the call of the fix method of a gate. *)
Inductive call :=
| Verdict (g : gate) (passed : bool)
| FixRequest (g : gate).

Record AriaExecutionLoop := {
  docker_client : bool;
  fix_attempts : Z;
  max_fix_attempts : Z;
}.

(** [AriaExecutionLoop.__init__]; [docker_available] tells whether
    [docker.from_env()] succeeded in [try_docker]. *)
Definition init (docker_available : bool) : AriaExecutionLoop :=
  {| docker_client := docker_available; fix_attempts := 0; max_fix_attempts := 10 |}.

Record Machine := {
  self : AriaExecutionLoop;
  calls : list call;
  world : World;
}.

Definition L (A : Type) : Type := M Machine A.

Definition lift {A} (m : W A) : L A :=
  fun st => match m (world st) with
            | (r, w') => (r, {| self := self st; calls := calls st; world := w' |})
            end.

Definition lift_res {A} (r : res A) : L A := fun st => (r, st).

Definition log (c : call) : L unit :=
  fun st => (Ret tt, {| self := self st; calls := calls st ++ [c]; world := world st |}).

Definition set_fix_attempts (n : Z) : L unit :=
  fun st => (Ret tt, {| self := {| docker_client := docker_client (self st);
                                   fix_attempts := n;
                                   max_fix_attempts := max_fix_attempts (self st) |};
                        calls := calls st; world := world st |}).

(** [self.fix_attempts += 1] *)
Definition incr_fix_attempts : L unit :=
  fun st => set_fix_attempts (fix_attempts (self st) + 1) st.

Inductive loop_status := perfect | best_effort.

(** The dictionary [perfect_loop] returns; the last three keys exist only
    when the status is [perfect]. *)
Record loop_result := {
  filename : string;
  content : string;
  status : loop_status;
  iterations : Z;
  tests_passed : option Z;
  execution_time : option Z;
  security : option string;
}.

Record file_info := {
  fi_filename : string;
  fi_content : string;
}.

(** How one pass through the body of the [while] ends: [continue] with the
    revised code, or [return]. *)
Inductive step :=
| Continue (code : string)
| Return (r : loop_result).

Section Loop.

Variable env : Env.

(** [exec_result["errors"]] *)
Definition errors_of (r : exec_result) : L string :=
  match exec_errors r with
  | Some e => ret e
  | None => raise (mk_exn "KeyError" "'errors'")
  end.

Definition iteration (file_name task code : string) : L step :=
  (* Step 1: Syntax validation *)
  syntax_result <- lift_res (validate_syntax env code) ;;
  log (Verdict Syntax (valid syntax_result)) ;;;
  if negb (valid syntax_result) then
    log (FixRequest Syntax) ;;;
    code <- lift (fix_syntax env code (syn_errors syntax_result)) ;;
    incr_fix_attempts ;;; ret (Continue code)
  else
  (* Step 2: Static analysis *)
  let static_result := static_analysis env code in
  log (Verdict Static (bool_decide (static_result = []))) ;;;
  if negb (bool_decide (static_result = [])) then
    log (FixRequest Static) ;;;
    code <- lift (fix_static_issues env code static_result) ;;
    incr_fix_attempts ;;; ret (Continue code)
  else
  (* Step 3: Execution test *)
  exec_result <- (fun st => lift (execute_code env (docker_client (self st)) code file_name) st) ;;
  log (Verdict Execution (success exec_result)) ;;;
  if negb (success exec_result) then
    errors <- errors_of exec_result ;;
    log (FixRequest Execution) ;;;
    code <- lift (fix_runtime_errors env code errors task) ;;
    incr_fix_attempts ;;; ret (Continue code)
  else
  (* Step 4: Test generation and execution *)
  tests <- lift (generate_tests env code task) ;;
  test_result <- lift (run_tests env code tests) ;;
  log (Verdict Tests (all_pass test_result)) ;;;
  if negb (all_pass test_result) then
    log (FixRequest Tests) ;;;
    code <- lift (fix_test_failures env code (failures test_result)) ;;
    incr_fix_attempts ;;; ret (Continue code)
  else
  (* Step 5: Security scan *)
  let security_result := security_scan code in
  log (Verdict Security (bool_decide (security_result = []))) ;;;
  if negb (bool_decide (security_result = [])) then
    log (FixRequest Security) ;;;
    code <- lift (fix_security_issues env code security_result) ;;
    incr_fix_attempts ;;; ret (Continue code)
  else
  (* Code is PERFECT! *)
  fun st =>
    (Ret (Return {| filename := file_name;
                    content := code;
                    status := perfect;
                    iterations := fix_attempts (self st);
                    tests_passed := Some (count test_result);
                    execution_time := exec_time exec_result;
                    security := Some "clean" |}), st).

(** [while self.fix_attempts < self.max_fix_attempts: ...] followed by
    the [best_effort] return. [None] only when [fuel] runs out. *)
Fixpoint while_loop (fuel : nat) (file_name task code : string) (st : Machine)
    : option (res loop_result * Machine) :=
  if fix_attempts (self st) <? max_fix_attempts (self st) then
    match fuel with
    | O => None
    | S fuel' =>
        match iteration file_name task code st with
        | (Ret (Continue code'), st') => while_loop fuel' file_name task code' st'
        | (Ret (Return r), st') => Some (Ret r, st')
        | (Raise e, st') => Some (Raise e, st')
        end
    end
  else
    Some (Ret {| filename := file_name;
                 content := code;
                 status := best_effort;
                 iterations := fix_attempts (self st);
                 tests_passed := None;
                 execution_time := None;
                 security := None |}, st).

(** The number of passes the loop can still make. *)
Definition budget (st : Machine) : nat :=
  Z.to_nat (max_fix_attempts (self st) - fix_attempts (self st)).

Definition perfect_loop (f : file_info) (task : string) (st : Machine)
    : option (res loop_result * Machine) :=
  match set_fix_attempts 0 st with
  | (_, st0) => while_loop (budget st0) (fi_filename f) task (fi_content f) st0
  end.

End Loop.

(** ** The decision on the reviewers' suggestions *)

(** The part of [trinity_review] the decision reads. *)
Record trinity_review := {
  available : bool;
  suggestions : list (gmap string string);
}.

Record aria_decision := {
  implement_suggestions : bool;
  approved_suggestions : list (gmap string string);
  rejected_suggestions : list (gmap string string);
  reasoning : string;
}.

(** [suggestion.get(key, fallback)] *)
Definition get (suggestion : gmap string string) (key fallback : string) : string :=
  default fallback (suggestion !! key).

Definition format_suggestion (i : nat) (suggestion : gmap string string) : string :=
  PyStr.join PyStr.nl
    [ "";
      "Suggestion #" +:+ str_of_int (Z.of_nat i) +:+ ":";
      "  Model: " +:+ get suggestion "model" "unknown";
      "  Category: " +:+ get suggestion "category" "general";
      "  Priority: " +:+ get suggestion "priority" "medium";
      "  Description: " +:+ get suggestion "description" "No description";
      "  Fix: " +:+ get suggestion "fix" "No fix provided";
      "  Rationale: " +:+ get suggestion "rationale" "No rationale";
      "" ].

Definition format_suggestions_for_aria (l : list (gmap string string)) : string :=
  PyStr.join PyStr.nl (imap format_suggestion l).

(** The body of the [try] under [APPROVE:] and under [REJECT:]:
    [Ret (Some entry)] appends [entry], [Ret None] appends nothing, and
    [int] or the subscript may raise. *)
Definition verdict_entry (tag : string) (l : list (gmap string string)) (line : string)
    : res (option (gmap string string)) :=
  let parts := PyStr.split1 "-"%char (PyStr.remove tag line) in
  match PyStr.int (PyStr.strip parts.1) with
  | None => Raise (mk_exn "ValueError" "invalid literal for int() with base 10")
  | Some idx =>
      let reason := match parts.2 with
                    | Some r => PyStr.strip r
                    | None => "No reason"
                    end in
      if (0 <=? idx) && (idx <? Z.of_nat (length l))
      then match l !! Z.to_nat idx with
           | Some suggestion => Ret (Some (<["aria_reasoning" := reason]> suggestion))
           | None => Raise (mk_exn "IndexError" "list index out of range")
           end
      else Ret None
  end.

(** [try: body except: pass] around an append *)
Definition append_unless_raised (acc : list (gmap string string))
    (body : res (option (gmap string string))) : list (gmap string string) :=
  match body with
  | Ret (Some entry) => acc ++ [entry]
  | Ret None => acc
  | Raise _ => acc
  end.

(** One turn of [for i, line in enumerate(lines)] on the pair of the
    approved and the rejected suggestions. *)
Definition judge (l : list (gmap string string))
    (acc : list (gmap string string) * list (gmap string string)) (line : string)
    : list (gmap string string) * list (gmap string string) :=
  let line := PyStr.strip line in
  if PyStr.startswith line "APPROVE:" then
    (append_unless_raised acc.1 (verdict_entry "APPROVE:" l line), acc.2)
  else if PyStr.startswith line "REJECT:" then
    (acc.1, append_unless_raised acc.2 (verdict_entry "REJECT:" l line))
  else acc.

Definition verdict_lines (aria_response : chat_value) : list string :=
  match aria_response with
  | ChatStr s => PyStr.split "010"%char s
  | _ => []
  end.

(** Everything after [aria_response = await aria_agent.chat(...)] *)
Definition parse_decisions (l : list (gmap string string)) (aria_response : chat_value)
    : aria_decision :=
  let '(approved, rejected) := fold_left (judge l) (verdict_lines aria_response) ([], []) in
  {| implement_suggestions := bool_decide (0 < length approved)%nat;
     approved_suggestions := approved;
     rejected_suggestions := rejected;
     reasoning := "Approved " +:+ str_of_int (Z.of_nat (length approved)) +:+ ", "
                  +:+ "Rejected " +:+ str_of_int (Z.of_nat (length rejected)) |}.

Definition aria_analyzes_trinity_suggestions (env : Env) (f : file_info)
    (review : trinity_review) : W aria_decision :=
  if negb (available review) then
    ret {| implement_suggestions := false; approved_suggestions := [];
           rejected_suggestions := []; reasoning := "Trinity review not available" |}
  else
  let l := suggestions review in
  if bool_decide (l = []) then
    ret {| implement_suggestions := false; approved_suggestions := [];
           rejected_suggestions := []; reasoning := "No suggestions from Trinity" |}
  else
  let analysis_prompt := PyStr.join PyStr.nl
    [ "";
      ind +:+ "Trinity has reviewed the code and provided these suggestions:";
      "";
      ind +:+ format_suggestions_for_aria l;
      "";
      ind +:+ "Current code:";
      ind +:+ PyStr.take 1000 (fi_content f);
      "";
      ind +:+ "As Aria, analyze each suggestion and decide:";
      ind +:+ "1. Is the suggestion valid and helpful?";
      ind +:+ "2. Would it improve the code?";
      ind +:+ "3. Are there any risks or downsides?";
      ind +:+ "4. Should we implement it?";
      "";
      ind +:+ "For each suggestion, respond with:";
      ind +:+ "APPROVE: [suggestion number] - [brief reason]";
      ind +:+ "OR";
      ind +:+ "REJECT: [suggestion number] - [brief reason]";
      "";
      ind +:+ "Be selective - only approve suggestions that genuinely improve the code.";
      ind ] in
  aria_response <- chat env analysis_prompt ;;
  ret (parse_decisions l aria_response).

Definition sample_suggestions : list (gmap string string) :=
  [ {[ "model" := "claude"; "category" := "performance"; "fix" := "use a set" ]};
    {[ "model" := "gpt-4"; "category" := "security"; "fix" := "validate the input" ]} ].

Definition sample_verdicts : string :=
  PyStr.join PyStr.nl
    [ "APPROVE: 0 - faster lookups";
      "APPROVE: 2 - no such suggestion";
      "  REJECT: 1 - out of scope";
      "REJECT: -1 - negative";
      "APPROVE: first - not a number";
      "APPROVE: 1" ].


(** ** Sample environments

    Concrete oracles on which the definitions above can be run. *)

Definition tmp_path (n : nat) : string := "/tmp/tmp" +:+ str_of_int (Z.of_nat n).

Definition sample_tests : string := "def test_ok(): assert True".

Definition pytest_report : string :=
  PyStr.join PyStr.nl [ "test_module.py::test_ok PASSED"; "1 passed in 0.01s" ].

(** Every process ends with status 0; [pytest] reports one passed test. *)
Definition calm_run (n : nat) (argv : list string) (cwd : option string)
    (fs : gmap string string) : proc_outcome :=
  match argv with
  | "pytest" :: _ => Completed 0 pytest_report ""
  | _ => Completed 0 "ok" ""
  end.

(** An environment in which nothing goes wrong: every text parses, the
    formatters change nothing, the model answers with one test. *)
Definition calm : Env :=
  {| ast_parse := fun _ => Parsed;
     black_format_str := fun code => Ret code;
     autopep8_fix_code := fun code => Ret code;
     agent_chat := fun _ _ => Ret (ChatStr sample_tests);
     tmp_name := tmp_path;
     write_error := fun _ => None;
     subprocess_run := calm_run;
     docker_run := fun _ _ _ => Exited 0 "ok";
     time_time := fun n => 1000 * Z.of_nat n |}.

(** The parser rejects every text and the model sends its input back. *)
Definition stubborn : Env :=
  {| ast_parse := fun _ => RaisesSyntaxError (Some 1) "invalid syntax" (Some "def f(x): return x+");
     black_format_str := black_format_str calm;
     autopep8_fix_code := autopep8_fix_code calm;
     agent_chat := fun _ _ => Ret (ChatStr "def f(x): return x+");
     tmp_name := tmp_path;
     write_error := write_error calm;
     subprocess_run := calm_run;
     docker_run := docker_run calm;
     time_time := time_time calm |}.

(** The model's client gives up on every request; the agent is
    [AriaAgent]. The parser rejects the text ending in [+]. *)
Definition nim_timed_out : exn := mk_exn "Exception" "NVIDIA NIM API request timed out".

Definition offline : Env :=
  {| ast_parse := fun code => if String.eqb code "def f(x): return x+"
                              then RaisesSyntaxError (Some 1) "invalid syntax" (Some code)
                              else Parsed;
     black_format_str := black_format_str calm;
     autopep8_fix_code := autopep8_fix_code calm;
     agent_chat := AriaAgent_chat (fun _ _ => Raise nim_timed_out);
     tmp_name := tmp_path;
     write_error := write_error calm;
     subprocess_run := calm_run;
     docker_run := docker_run calm;
     time_time := time_time calm |}.



(** [black] puts blanks around the equals sign of ["x=1"]. *)
Definition untidy : Env :=
  {| ast_parse := ast_parse calm;
     black_format_str := fun code => if String.eqb code "x=1" then Ret "x = 1" else Ret code;
     autopep8_fix_code := autopep8_fix_code calm;
     agent_chat := agent_chat calm;
     tmp_name := tmp_path;
     write_error := write_error calm;
     subprocess_run := calm_run;
     docker_run := docker_run calm;
     time_time := time_time calm |}.

(** No program ends in time: [subprocess.run] raises [TimeoutExpired] and
    [container.wait] the time-out of its HTTP client. *)
Definition read_timed_out : exn :=
  mk_exn "ReadTimeout"
    "UnixHTTPConnectionPool(host='localhost', port=None): Read timed out. (read timeout=10)".

Definition endless : Env :=
  {| ast_parse := ast_parse calm;
     black_format_str := black_format_str calm;
     autopep8_fix_code := autopep8_fix_code calm;
     agent_chat := agent_chat calm;
     tmp_name := tmp_path;
     write_error := write_error calm;
     subprocess_run := fun _ _ _ _ => TimeoutExpired;
     docker_run := fun _ _ _ => WaitTimedOut read_timed_out;
     time_time := time_time calm |}.

(** An interpreter on which a NUL character in the source makes [compile]
    raise [ValueError] (CPython up to 3.11). *)
Definition nul : string := String "000"%char "".

Definition null_bytes : exn := mk_exn "ValueError" "source code string cannot contain null bytes".

Definition strict_parser : Env :=
  {| ast_parse := fun code => if PyStr.contains nul code then RaisesOther null_bytes else Parsed;
     black_format_str := black_format_str calm;
     autopep8_fix_code := autopep8_fix_code calm;
     agent_chat := agent_chat calm;
     tmp_name := tmp_path;
     write_error := write_error calm;
     subprocess_run := calm_run;
     docker_run := docker_run calm;
     time_time := time_time calm |}.

(** A platform whose default text encoding has no check mark (cp1252):
    writing a text that contains one raises [UnicodeEncodeError]. The
    check mark is the three bytes E2 9C 93 of its UTF-8 form. *)
Definition check_mark : string :=
  String (ascii_of_nat 226) (String (ascii_of_nat 156) (String (ascii_of_nat 147) "")).

Definition charmap_error : exn :=
  mk_exn "UnicodeEncodeError" "'charmap' codec can't encode character '✓'".

Definition narrow_locale : Env :=
  {| ast_parse := ast_parse calm;
     black_format_str := black_format_str calm;
     autopep8_fix_code := autopep8_fix_code calm;
     agent_chat := agent_chat calm;
     tmp_name := tmp_path;
     write_error := fun text => if PyStr.contains check_mark text then Some charmap_error else None;
     subprocess_run := calm_run;
     docker_run := docker_run calm;
     time_time := time_time calm |}.

Definition empty_world : World := {| files := ∅; clock := 0; prompts := [] |}.

(** A freshly constructed loop object in an empty world. *)
Definition fresh (docker_available : bool) : Machine :=
  {| self := init docker_available; calls := []; world := empty_world |}.

(** An artifact with a syntax error and one without. *)
Definition sample_file : file_info :=
  {| fi_filename := "f.py"; fi_content := "def f(x): return x+" |}.

Definition tidy_file : file_info :=
  {| fi_filename := "inc.py"; fi_content := "def inc(x): return x + 1" |}.


(** ** The phases around the loop

    The other methods of [AriaExecutionLoop]: the review by other models
    ([get_trinity_review], [parse_trinity_suggestions],
    [apply_trinity_suggestions], [trinity_code_review]), the optimisation
    pass, the integration check, the final verification and
    [generate_perfect_code], which strings them together. *)

(** What [trinity_client.consult] answers: the models' responses, each a
    dictionary read with [.get("model", "unknown")] and
    [.get("response", "")], and a consensus. *)
Record trinity_response := {
  responses : list (gmap string string);
  consensus : gmap string string;
}.

(** The dictionary [get_trinity_review] returns; absent keys are the empty
    list, the empty dictionary and [None]. *)
Record trinity_report := {
  report_available : bool;
  report_reviews : list (gmap string string);
  report_consensus : gmap string string;
  report_suggestions : list (gmap string string);
  report_error : option string;
}.

(** [trinity_review.get("available")] and
    [trinity_review.get("suggestions", [])] *)
Definition review_of (report : trinity_report) : trinity_review :=
  {| available := report_available report; suggestions := report_suggestions report |}.

(** [line.replace(label, "").strip()] *)
Definition labelled (label line : string) : string :=
  PyStr.strip (PyStr.remove label line).

(** One turn of the inner [for line in lines] of
    [parse_trinity_suggestions] on the suggestions collected so far and
    the suggestion in progress. [line.split(":", 1)[1]] raises when the
    split has one part. *)
Definition suggestion_step (model_name : string)
    (acc : list (gmap string string) * gmap string string) (line : string)
    : res (list (gmap string string) * gmap string string) :=
  let line := PyStr.strip line in
  let '(collected, current_suggestion) := acc in
  if PyStr.startswith line "Category:" then
    Ret (if bool_decide (current_suggestion = ∅) then collected
         else collected ++ [current_suggestion],
         <["category" := labelled "Category:" line]> {[ "model" := model_name ]})
  else if PyStr.startswith line "Priority:" then
    Ret (collected, <["priority" := labelled "Priority:" line]> current_suggestion)
  else if PyStr.startswith line "Description:" then
    Ret (collected, <["description" := labelled "Description:" line]> current_suggestion)
  else if PyStr.startswith line "Fix:" || PyStr.startswith line "Recommended:" then
    match (PyStr.split1 ":"%char line).2 with
    | Some rest => Ret (collected, <["fix" := PyStr.strip rest]> current_suggestion)
    | None => Raise (mk_exn "IndexError" "list index out of range")
    end
  else if PyStr.startswith line "Rationale:" then
    Ret (collected, <["rationale" := labelled "Rationale:" line]> current_suggestion)
  else Ret acc.

Fixpoint suggestion_lines (model_name : string) (lines : list string)
    (acc : list (gmap string string) * gmap string string)
    : res (list (gmap string string) * gmap string string) :=
  match lines with
  | [] => Ret acc
  | line :: rest =>
      match suggestion_step model_name acc line with
      | Ret acc' => suggestion_lines model_name rest acc'
      | Raise e => Raise e
      end
  end.

(** The body of [for model_response in ...]: the lines of one response,
    then the suggestion still in progress. *)
Definition suggestions_of_response (collected : list (gmap string string))
    (model_response : gmap string string) : res (list (gmap string string)) :=
  let model_name := get model_response "model" "unknown" in
  let content := get model_response "response" "" in
  match suggestion_lines model_name (PyStr.split "010"%char content) (collected, ∅) with
  | Ret (collected', current_suggestion) =>
      Ret (if bool_decide (current_suggestion = ∅) then collected'
           else collected' ++ [current_suggestion])
  | Raise e => Raise e
  end.

Fixpoint suggestions_of_responses (collected : list (gmap string string))
    (l : list (gmap string string)) : res (list (gmap string string)) :=
  match l with
  | [] => Ret collected
  | model_response :: rest =>
      match suggestions_of_response collected model_response with
      | Ret collected' => suggestions_of_responses collected' rest
      | Raise e => Raise e
      end
  end.

Definition parse_trinity_suggestions (r : trinity_response) : res (list (gmap string string)) :=
  suggestions_of_responses [] (responses r).

Definition review_prompt (f : file_info) : string :=
  PyStr.join PyStr.nl
    [ "";
      ind +:+ "Please review this code and provide suggestions for improvement:";
      "";
      ind +:+ "Filename: " +:+ fi_filename f;
      "";
      ind +:+ "Code:";
      ind +:+ fi_content f;
      "";
      ind +:+ "Focus on:";
      ind +:+ "1. Code quality and readability";
      ind +:+ "2. Performance optimizations";
      ind +:+ "3. Security concerns";
      ind +:+ "4. Best practices";
      ind +:+ "5. Potential bugs";
      ind +:+ "6. Better design patterns";
      "";
      ind +:+ "For each suggestion, provide:";
      ind +:+ "- Category (quality/performance/security/design/bug)";
      ind +:+ "- Priority (high/medium/low)";
      ind +:+ "- Description of the issue";
      ind +:+ "- Recommended fix";
      ind +:+ "- Rationale for the change";
      ind ].

Definition unavailable (error : option string) : trinity_report :=
  {| report_available := false; report_reviews := []; report_consensus := ∅;
     report_suggestions := []; report_error := error |}.

(** [trinity_client] is [None] when the agent has no attribute of that
    name, and otherwise the [consult] method of the attribute, an oracle
    like [agent_chat]. Whatever the [try] raises, the parser included,
    ends in the [except Exception]. *)
Definition get_trinity_review (trinity_client : option (nat -> string -> res trinity_response))
    (f : file_info) : W trinity_report :=
  match trinity_client with
  | None => ret (unavailable None)
  | Some consult =>
      fun w =>
        (Ret match consult (clock w) (review_prompt f) with
             | Ret trinity_response =>
                 match parse_trinity_suggestions trinity_response with
                 | Ret l =>
                     {| report_available := true;
                        report_reviews := responses trinity_response;
                        report_consensus := consensus trinity_response;
                        report_suggestions := l;
                        report_error := None |}
                 | Raise e => unavailable (Some (exn_str e))
                 end
             | Raise e => unavailable (Some (exn_str e))
             end, tick w)
  end.

Definition apply_trinity_suggestions (env : Env) (code : string)
    (approved : list (gmap string string)) : W string :=
  if bool_decide (approved = []) then ret code
  else
    let apply_prompt := PyStr.join PyStr.nl
      [ "";
        ind +:+ "Apply these approved suggestions to the code:";
        "";
        ind +:+ format_suggestions_for_aria approved;
        "";
        ind +:+ "Current code:";
        ind +:+ code;
        "";
        ind +:+ "Return ONLY the improved code with all approved suggestions implemented.";
        ind ] in
    result <- chat env apply_prompt ;; fixed_code result code.

(** A file on its way through the later phases: the dictionary of
    [perfect_loop] and the keys that [optimize_performance] and
    [trinity_code_review] add with [{**file_info, ...}]. *)
Record artifact := {
  art : loop_result;
  optimized : bool;
  art_review : option trinity_report;
  art_decision : option aria_decision;
  trinity_reviewed : bool;
}.

(** [{**r, "content": code}] *)
Definition with_content (r : loop_result) (code : string) : loop_result :=
  {| filename := filename r; content := code; status := status r;
     iterations := iterations r; tests_passed := tests_passed r;
     execution_time := execution_time r; security := security r |}.

Definition info_of (r : loop_result) : file_info :=
  {| fi_filename := filename r; fi_content := content r |}.

Definition optimize_prompt (code : string) : string :=
  PyStr.join PyStr.nl
    [ "";
      ind +:+ "    Optimize this code for performance:";
      "";
      ind +:+ "    " +:+ code;
      "";
      ind +:+ "    Focus on:";
      ind +:+ "    1. Algorithm efficiency";
      ind +:+ "    2. Memory usage";
      ind +:+ "    3. Caching opportunities";
      ind +:+ "    4. Parallel processing where applicable";
      "";
      ind +:+ "    Return ONLY the optimized code.";
      ind +:+ "    " ].

Fixpoint optimize_performance (env : Env) (files : list loop_result) : W (list artifact) :=
  match files with
  | [] => ret []
  | f :: rest =>
      result <- chat env (optimize_prompt (content f)) ;;
      optimized_content <- fixed_code result (content f) ;;
      optimized_files <- optimize_performance env rest ;;
      ret ({| art := with_content f optimized_content; optimized := true;
              art_review := None; art_decision := None; trinity_reviewed := false |}
           :: optimized_files)
  end.

(** The body of the [for] of [trinity_code_review]. *)
Definition review_file (env : Env)
    (trinity_client : option (nat -> string -> res trinity_response)) (f : artifact)
    : W artifact :=
  trinity_review <- get_trinity_review trinity_client (info_of (art f)) ;;
  aria_decision <- aria_analyzes_trinity_suggestions env (info_of (art f))
                     (review_of trinity_review) ;;
  final_code <- (if implement_suggestions aria_decision
                 then apply_trinity_suggestions env (content (art f))
                        (approved_suggestions aria_decision)
                 else ret (content (art f))) ;;
  ret {| art := with_content (art f) final_code; optimized := optimized f;
         art_review := Some trinity_review; art_decision := Some aria_decision;
         trinity_reviewed := true |}.

Fixpoint trinity_code_review (env : Env)
    (trinity_client : option (nat -> string -> res trinity_response))
    (files : list artifact) : W (list artifact) :=
  match files with
  | [] => ret []
  | f :: rest =>
      reviewed <- review_file env trinity_client f ;;
      reviewed_files <- trinity_code_review env trinity_client rest ;;
      ret (reviewed :: reviewed_files)
  end.

Record metrics := {
  total_files : Z;
  total_lines : Z;
  all_tested : bool;
  all_secure : bool;
  all_optimized : bool;
}.

Record verification := {
  verified : bool;
  verified_metrics : metrics;
  coverage : string;
}.

Definition line_count (code : string) : Z :=
  Z.of_nat (length (PyStr.split "010"%char code)).

Fixpoint sum_list (l : list Z) : Z :=
  match l with
  | [] => 0
  | x :: rest => x + sum_list rest
  end.

Definition final_verification (files : list artifact) : verification :=
  let m :=
    {| total_files := Z.of_nat (length files);
       total_lines := sum_list (map (fun f => line_count (content (art f))) files);
       all_tested := forallb (fun f => 0 <? default 0 (tests_passed (art f))) files;
       all_secure := forallb (fun f => bool_decide (security (art f) = Some "clean")) files;
       all_optimized := forallb optimized files |} in
  {| verified := true;
     verified_metrics := m;
     coverage := if all_tested m then "100%" else "partial" |}.

(** *** The integration check *)

(** [Path(base) / name]: an absolute [name] replaces [base]. Names are
    taken as written (no [.] component, no doubled or trailing slash). *)
Definition path_join (base name : string) : string :=
  if PyStr.startswith name "/" then name else base +:+ "/" +:+ name.

(** The path up to its last slash; [None] when it has none. *)
Fixpoint dirname (path : string) : option string :=
  match path with
  | EmptyString => None
  | String a rest =>
      match dirname rest with
      | Some d => Some (String a d)
      | None => if Ascii.eqb a "/"%char then Some "" else None
      end
  end.

Definition no_such_file (path : string) : exn :=
  mk_exn "FileNotFoundError" ("[Errno 2] No such file or directory: '" +:+ path +:+ "'").

(** [Path.write_text] at a path built from a file name: the directory
    that is to hold the file has to exist. *)
Definition write_text_in_dir (env : Env) (path text : string) : W unit :=
  fun w =>
    match dirname path with
    | Some d =>
        match files w !! d with
        | Some _ => write_text env path text w
        | None => (Raise (no_such_file path), w)
        end
    | None => write_text env path text w
    end.

Record integration_result := {
  integration_success : bool;
  integration_errors : option string;
}.

Definition dq : string := String "034"%char "".

Definition integration_script : string :=
  "import main; main.main() if hasattr(main, 'main') else None".

Definition integration_timeout : exn :=
  mk_exn "TimeoutExpired"
    ("Command '['python', '-c', " +:+ dq +:+ integration_script +:+ dq
     +:+ "]' timed out after 10 seconds").

Fixpoint write_files (env : Env) (tmpdir : string) (files : list loop_result) : W unit :=
  match files with
  | [] => ret tt
  | f :: rest =>
      write_text_in_dir env (path_join tmpdir (filename f)) (content f) ;;;
      write_files env tmpdir rest
  end.

Definition run_integration (env : Env) (tmpdir : string) : W integration_result :=
  fun w =>
    (Ret match subprocess_run env (clock w) ["python"; "-c"; integration_script]
                 (Some tmpdir) (files w) with
         | Completed returncode stdout stderr =>
             {| integration_success := returncode =? 0;
                integration_errors := if negb (returncode =? 0) then Some stderr else None |}
         | TimeoutExpired =>
             {| integration_success := false;
                integration_errors := Some (exn_str integration_timeout) |}
         | ProcError e =>
             {| integration_success := false; integration_errors := Some (exn_str e) |}
         end, tick w).

Definition test_integration (env : Env) (files : list loop_result) : W integration_result :=
  with_temporary_directory env (fun tmpdir =>
    write_files env tmpdir files ;;; run_integration env tmpdir).

(** [# For now, return as-is] *)
Definition fix_integration (files : list loop_result) (errors : option string)
    : W (list loop_result) :=
  ret files.

(** *** [generate_perfect_code] *)

(** What [aria_agent.code_task] returns, as far as it is read. *)
Record plan := {
  plan_status : string;
  plan_text : string;
}.

(** [code_result["files_created"]]: file names, or dictionaries with a
    name and a content. *)
Inductive created :=
| Names (l : list string)
| Infos (l : list file_info).

(** What [aria_agent.execute_plan] returns, as far as it is read;
    [None] when the key is missing. *)
Record code_result := {
  files_created : option created;
}.

(** The agent beyond its [chat]: two methods that act on the world, the
    workspace, and the [consult] of its [trinity_client] when it has
    one. *)
Record Agent := {
  code_task : string -> W plan;
  execute_plan : W code_result;
  workspace_path : string;
  trinity_client : option (nat -> string -> res trinity_response);
}.

(** [AriaAgent.code_task] (core/agent.py): whatever the model answers,
    the status is [plan_ready]. *)
Definition AriaAgent_code_task (env : Env) (task_description : string) : W plan :=
  let analysis_prompt := PyStr.join PyStr.nl
    [ "I need to: " +:+ task_description;
      "";
      "Before I start coding, let me:";
      "1. Clarify the requirements";
      "2. Propose an approach";
      "3. List files I'll create";
      "4. Ask if you want me to proceed";
      "";
      "Analyze this task and respond with your plan." ] in
  plan <- chat env analysis_prompt ;;
  ret {| plan_status := "plan_ready";
         plan_text := match plan with ChatStr s => s | _ => "" end |}.

(** An [AriaAgent]: it keeps its consultant under [_trinity_client], so
    [hasattr(aria_agent, 'trinity_client')] is false. [execute_plan]
    parses the model's answer with regular expressions and is left as a
    parameter. *)
Definition AriaAgent (env : Env) (execute : W code_result) (workspace : string) : Agent :=
  {| code_task := AriaAgent_code_task env;
     execute_plan := execute;
     workspace_path := workspace;
     trinity_client := None |}.

Record generated := {
  gen_status : string;
  gen_files : list artifact;
  gen_metrics : metrics;
  guarantee : string;
  gen_execution_time : option Z;
  test_coverage : string;
  gen_trinity_reviewed : bool;
}.

(** The three dictionaries [generate_perfect_code] can return. *)
Inductive generation :=
| PlanNotReady (initial_code : plan)
| NoCodeGenerated
| Generated (g : generated).

(** [not code_result.get("files_created")] *)
Definition nothing_created (c : code_result) : bool :=
  match files_created c with
  | None => true
  | Some (Names l) => bool_decide (l = [])
  | Some (Infos l) => bool_decide (l = [])
  end.

(** The files of the workspace that exist, with what they hold. *)
Fixpoint files_to_process (workspace : string) (names : list string)
    (fs : gmap string string) : list file_info :=
  match names with
  | [] => []
  | name :: rest =>
      match fs !! path_join workspace name with
      | Some text => {| fi_filename := name; fi_content := text |}
                     :: files_to_process workspace rest fs
      | None => files_to_process workspace rest fs
      end
  end.

Definition files_of (workspace : string) (c : code_result) (fs : gmap string string)
    : list file_info :=
  match files_created c with
  | Some (Names l) => files_to_process workspace l fs
  | Some (Infos l) => l
  | None => []
  end.

(** [await self.perfect_loop(...)] as a computation on the machine. The
    fuel of [perfect_loop] always suffices; the last case does not
    occur. *)
Definition run_perfect_loop (env : Env) (f : file_info) (task : string) : L loop_result :=
  fun st => match perfect_loop env f task st with
            | Some out => out
            | None => (Raise (mk_exn "RecursionError" "out of fuel"), st)
            end.

Fixpoint perfect_files (env : Env) (files : list file_info) (task : string)
    : L (list loop_result) :=
  match files with
  | [] => ret []
  | f :: rest =>
      perfect_file <- run_perfect_loop env f task ;;
      others <- perfect_files env rest task ;;
      ret (perfect_file :: others)
  end.

(** Phase 3 *)
Definition integration_phase (env : Env) (files : list loop_result) : W (list loop_result) :=
  if bool_decide (1 < length files)%nat then
    integration_result <- test_integration env files ;;
    if negb (integration_success integration_result)
    then fix_integration files (integration_errors integration_result)
    else ret files
  else ret files.

Definition guarantee_text : string :=
  "This code is TESTED, OPTIMIZED, TRINITY-REVIEWED, and GUARANTEED to work".

Definition generate_perfect_code (env : Env) (aria_agent : Agent) (task : string)
    : L generation :=
  (* Phase 1: Initial Generation *)
  initial_code <- lift (code_task aria_agent task) ;;
  if negb (String.eqb (plan_status initial_code) "plan_ready") then
    ret (PlanNotReady initial_code)
  else
  code_result <- lift (execute_plan aria_agent) ;;
  if nothing_created code_result then ret NoCodeGenerated
  else
  (* Phase 2: Validation & Execution Loop *)
  files <- (fun st => (Ret (files_of (workspace_path aria_agent) code_result
                              (files (world st))), st)) ;;
  perfect <- perfect_files env files task ;;
  (* Phase 3: Integration Testing *)
  perfect <- lift (integration_phase env perfect) ;;
  (* Phase 4: Performance Optimization *)
  optimized_files <- lift (optimize_performance env perfect) ;;
  (* Phase 5: Trinity Code Review *)
  reviewed_files <- lift (trinity_code_review env (trinity_client aria_agent) optimized_files) ;;
  (* Phase 6: Final Verification *)
  let final_result := final_verification reviewed_files in
  ret (Generated {| gen_status := "perfect";
                    gen_files := reviewed_files;
                    gen_metrics := verified_metrics final_result;
                    guarantee := guarantee_text;
                    gen_execution_time := None;
                    test_coverage := coverage final_result;
                    gen_trinity_reviewed := true |}).

(** *** Vocabulary for the later phases *)



(** What [trinity_code_review] makes of a file when no review is to be
    had. *)
Definition unreviewed (report : trinity_report) (f : artifact) : artifact :=
  {| art := art f; optimized := optimized f;
     art_review := Some report;
     art_decision := Some {| implement_suggestions := false; approved_suggestions := [];
                             rejected_suggestions := [];
                             reasoning := "Trinity review not available" |};
     trinity_reviewed := true |}.

(** A file has run tests to show. *)
Definition tested (f : artifact) : Prop :=
  exists n, tests_passed (art f) = Some n /\ 0 < n.



(** ** Vocabulary of the statements *)

Definition gate_order : list gate := [Syntax; Static; Execution; Tests; Security].

(** The gates that come before [g] in an iteration. *)
Definition before (g : gate) : list gate :=
  match g with
  | Syntax => []
  | Static => [Syntax]
  | Execution => [Syntax; Static]
  | Tests => [Syntax; Static; Execution]
  | Security => [Syntax; Static; Execution; Tests]
  end.

Definition passes (gs : list gate) : list call := map (fun g => Verdict g true) gs.

(** What is seen of an iteration in which [g] is the first gate to fail:
    the earlier gates pass in order, [g] fails, the fix of [g] is called,
    and nothing else happens. *)
Definition failed_at (g : gate) : list call :=
  passes (before g) ++ [Verdict g false; FixRequest g].

(** What is seen of an iteration that ends, by outcome. *)
Inductive iteration_trace : res step -> list call -> Prop :=
| trace_fixed g code : iteration_trace (Ret (Continue code)) (failed_at g)
| trace_perfect r : iteration_trace (Ret (Return r)) (passes gate_order)
| trace_gate_raised g e : iteration_trace (Raise e) (passes (before g))
| trace_fix_raised g e : iteration_trace (Raise e) (failed_at g).

(** What is seen of the last, unfinished or successful, pass of a run. *)
Inductive last_pass : res loop_result -> list call -> Prop :=
| last_perfect r : status r = perfect -> last_pass (Ret r) (passes gate_order)
| last_best_effort r : status r = best_effort -> last_pass (Ret r) []
| last_gate_raised g e : last_pass (Raise e) (passes (before g))
| last_fix_raised g e : last_pass (Raise e) (failed_at g).

Definition is_fix_request (c : call) : bool :=
  match c with
  | FixRequest _ => true
  | Verdict _ _ => false
  end.

(** The number of fix requests in a trace. *)
Definition fix_requests (l : list call) : nat :=
  length (filter (fun c => is_fix_request c = true) l).

(** [n] passes through the loop body, each of which ends in [continue]. *)
Fixpoint repeat_iteration (env : Env) (file_name task : string) (n : nat)
    (code : string) (st : Machine) : option (string * Machine) :=
  match n with
  | O => Some (code, st)
  | S n' =>
      match iteration env file_name task code st with
      | (Ret (Continue code'), st') => repeat_iteration env file_name task n' code' st'
      | _ => None
      end
  end.

(** The state in which [perfect_loop] enters its [while]. *)
Definition entered (st : Machine) : Machine := (set_fix_attempts 0 st).2.

(** [pat] occurs in [s]. *)
Definition occurs (pat s : string) : Prop := exists pre post, s = pre +:+ pat +:+ post.

Definition vulnerability_of (pm : string * string) : vulnerability :=
  {| pattern := pm.1; message := pm.2; severity := "high" |}.


(** Whether a pass through the loop body ends in [continue]. *)
Definition continues (out : res step) : bool :=
  match out with
  | Ret (Continue _) => true
  | _ => false
  end.

(** The summary of a run of the [while] from [st] to [st']: [gs] lists the
    gate that failed in each completed iteration. *)
Definition run_summary (file_name : string) (st : Machine) (out : res loop_result)
    (st' : Machine) : Prop :=
  docker_client (self st') = docker_client (self st)
  /\ max_fix_attempts (self st') = max_fix_attempts (self st)
  /\ fix_attempts (self st') <= Z.max (fix_attempts (self st)) (max_fix_attempts (self st))
  /\ (exists gs tail,
        calls st' = calls st ++ concat (map failed_at gs) ++ tail
        /\ fix_attempts (self st') = fix_attempts (self st) + Z.of_nat (length gs)
        /\ last_pass out tail)
  /\ (forall r, out = Ret r ->
        filename r = file_name
        /\ iterations r = fix_attempts (self st')
        /\ (status r = best_effort -> max_fix_attempts (self st) <= fix_attempts (self st'))
        /\ (status r = perfect ->
              fix_attempts (self st') < max_fix_attempts (self st)
              /\ security_scan (content r) = []))
  /\ (forall e, out = Raise e -> fix_attempts (self st') < max_fix_attempts (self st)).

(** What [fix_static_issues] makes of the code: [black], then
    [autopep8] on the result, each skipped when it raises. *)
Definition reformatted (env : Env) (code : string) : string :=
  match black_format_str env code with
  | Ret blackened =>
      match autopep8_fix_code env blackened with
      | Ret pep8 => pep8
      | Raise _ => blackened
      end
  | Raise _ => code
  end.

(** The [best_effort] dictionary. *)
Definition gave_up (file_name code : string) (n : Z) : loop_result :=
  {| filename := file_name; content := code; status := best_effort; iterations := n;
     tests_passed := None; execution_time := None; security := None |}.

(** The four fix requests that go through the model. *)
Definition chat_fixers (env : Env) (code : string) (errors : list syntax_error)
    (runtime_errors task : string) (failures : list string)
    (vulnerabilities : list vulnerability) : list (W string) :=
  [ fix_syntax env code errors;
    fix_runtime_errors env code runtime_errors task;
    fix_test_failures env code failures;
    fix_security_issues env code vulnerabilities ].


(** Every suggestion that is approved or rejected is one of the list,
    with the reason attached. *)
Definition judged_from (l : list (gmap string string)) (entry : gmap string string) : Prop :=
  exists (idx : nat) suggestion reason,
    l !! idx = Some suggestion /\ entry = <["aria_reasoning" := reason]> suggestion.

(** The keys of the loop's dictionary other than [content]. *)
Definition same_verdicts (r r' : loop_result) : Prop :=
  filename r' = filename r /\ status r' = status r /\ iterations r' = iterations r
  /\ tests_passed r' = tests_passed r /\ execution_time r' = execution_time r
  /\ security r' = security r.

(** What [optimize_performance] makes of a result of the loop: the
    content is what the model answered to the request (or the old content
    when it answered with a mapping without [response]), the other keys
    are the old ones. *)
Definition optimized_from (env : Env) (r : loop_result) (f : artifact) : Prop :=
  same_verdicts r (art f)
  /\ optimized f = true /\ trinity_reviewed f = false
  /\ exists n, match agent_chat env n (optimize_prompt (content r)) with
               | Ret (ChatStr s) => content (art f) = s
               | Ret (ChatDict d) => content (art f) = default (content r) (d !! "response")
               | _ => False
               end.

(** What [trinity_code_review] makes of a file. *)
Definition reviewed_from (f g : artifact) : Prop :=
  same_verdicts (art f) (art g)
  /\ optimized g = optimized f /\ trinity_reviewed g = true
  /\ exists report d,
       art_review g = Some report /\ art_decision g = Some d
       /\ Forall (judged_from (report_suggestions report)) (approved_suggestions d)
       /\ (implement_suggestions d = false -> content (art g) = content (art f))
       /\ (report_available report = false -> g = unreviewed report f).

(** The loop's result for [sample_file] once the budget is spent. *)
Definition spent_result : loop_result :=
  {| filename := "f.py"; content := "def f(x): return x+"; status := best_effort;
     iterations := 10; tests_passed := None; execution_time := None; security := None |}.

(** A consultant that cannot be reached. *)
Definition unreachable : nat -> string -> res trinity_response :=
  fun _ _ => Raise nim_timed_out.

(** An agent whose plan names two files that are not in the workspace,
    and an [AriaAgent] whose plan carries [sample_file]. *)
Definition forgetful : Agent :=
  {| code_task := AriaAgent_code_task calm;
     execute_plan := ret {| files_created := Some (Names ["a.py"; "b.py"]) |};
     workspace_path := "/workspace";
     trinity_client := None |}.

Definition hopeful : Agent :=
  AriaAgent stubborn (ret {| files_created := Some (Infos [sample_file]) |}) "/workspace".

(** ** The definitions at work *)

Example split_lines : PyStr.split "010"%char ("a" +:+ PyStr.nl +:+ "" +:+ PyStr.nl +:+ "b") = ["a"; ""; "b"].
Proof. reflexivity. Qed.

Example split1_dash : PyStr.split1 "-"%char " 3 - use a set - faster" = (" 3 ", Some " use a set - faster").
Proof. reflexivity. Qed.

Example remove_all : PyStr.remove "APPROVE:" "APPROVE: 1 APPROVE:- ok" = " 1 - ok".
Proof. reflexivity. Qed.

Example strip_both : PyStr.strip "   APPROVE: 0  " = "APPROVE: 0".
Proof. reflexivity. Qed.

Example int_forms :
  PyStr.int " 12 " = Some 12 /\ PyStr.int "+7" = Some 7 /\ PyStr.int "1_000" = Some 1000 /\
  PyStr.int "" = None /\ PyStr.int "one" = None /\ PyStr.int "1__0" = None /\ PyStr.int "-4" = Some (-4).
Proof. repeat split; reflexivity. Qed.

Example scan_retrieval :
  security_scan "rows = retrieval(query)"
  = [ {| pattern := "eval("; message := "Use of eval is dangerous"; severity := "high" |} ].
Proof. reflexivity. Qed.

Example scan_comment :
  map pattern (security_scan "# never call os.system or pickle.loads here")
  = ["os.system"; "pickle.loads"].
Proof. reflexivity. Qed.

Example sample_decision :
  let d := parse_decisions sample_suggestions (ChatStr sample_verdicts) in
  approved_suggestions d
  = [ <["aria_reasoning" := "faster lookups"]> (sample_suggestions !!! 0%nat);
      <["aria_reasoning" := "No reason"]> (sample_suggestions !!! 1%nat) ]
  /\ rejected_suggestions d
  = [ <["aria_reasoning" := "out of scope"]> (sample_suggestions !!! 1%nat) ]
  /\ reasoning d = "Approved 2, Rejected 1".
Proof. vm_compute. repeat split; reflexivity. Qed.

(** ** Strings *)

Lemma prefix_occurs (p s : string) :
  String.prefix p s = true <-> exists post, s = p +:+ post.
Proof.
  revert s. induction p as [|a p IH]; intros s.
  - split; [intros _; now exists s | intros _; now destruct s].
  - destruct s as [|b s]; simpl.
    + split; [discriminate | intros [post H]; discriminate].
    + destruct (ascii_dec a b) as [->|Hne].
      * rewrite IH. split; intros [post H]; exists post; simpl in *; congruence.
      * split; [discriminate | intros [post H]; simpl in H; congruence].
Qed.

Lemma contains_occurs (p s : string) : PyStr.contains p s = true <-> occurs p s.
Proof.
  unfold occurs. induction s as [|a s IH].
  - change (PyStr.contains p "") with (String.prefix p "" || false).
    rewrite orb_false_r, prefix_occurs. split.
    + intros [post H]. now exists "", post.
    + intros (pre & post & H). destruct pre as [|x pre]; [now exists post | discriminate].
  - change (PyStr.contains p (String a s))
      with (String.prefix p (String a s) || PyStr.contains p s).
    rewrite orb_true_iff, IH, prefix_occurs. split.
    + intros [[post H] | (pre & post & H)].
      * now exists "", post.
      * exists (String a pre), post. simpl. now rewrite H.
    + intros (pre & post & H). destruct pre as [|x pre].
      * left. now exists post.
      * right. exists pre, post. simpl in H. congruence.
Qed.

(** ** The security scan *)

Lemma scan_patterns_filter (patterns : list (string * string)) (code : string) :
  scan_patterns patterns code
  = map vulnerability_of (filter (fun pm => PyStr.contains pm.1 code = true) patterns).
Proof.
  induction patterns as [|[pat msg] rest IH]; [reflexivity |].
  simpl. rewrite filter_cons. simpl.
  destruct (PyStr.contains pat code) eqn:E.
  - rewrite decide_True by reflexivity. simpl. now rewrite IH.
  - rewrite decide_False by discriminate. exact IH.
Qed.

Lemma in_scan_patterns (patterns : list (string * string)) (code : string) (v : vulnerability) :
  v ∈ scan_patterns patterns code
  <-> exists pm, pm ∈ patterns /\ occurs pm.1 code /\ v = vulnerability_of pm.
Proof.
  rewrite scan_patterns_filter, list_elem_of_fmap. split.
  - intros (pm & -> & Hin). apply list_elem_of_filter in Hin as [Hc Hin].
    exists pm. now rewrite <- contains_occurs.
  - intros (pm & Hin & Hocc & ->). exists pm. split; [reflexivity |].
    apply list_elem_of_filter. now rewrite contains_occurs.
Qed.

Lemma patterns_distinct : NoDup (map fst dangerous_patterns).
Proof. compute_done. Qed.

Lemma scan_patterns_nodup (patterns : list (string * string)) (code : string) :
  NoDup (map fst patterns) -> NoDup (map pattern (scan_patterns patterns code)).
Proof.
  induction patterns as [|[pat msg] rest IH]; simpl; intros Hnd.
  - constructor.
  - apply NoDup_cons in Hnd as [Hnotin Hnd].
    destruct (PyStr.contains pat code); [| now apply IH].
    simpl. apply NoDup_cons. split; [| now apply IH].
    intros Hin. apply Hnotin.
    apply list_elem_of_fmap in Hin as (v & Hv & Hin).
    apply in_scan_patterns in Hin as (pm & Hpm & _ & ->).
    apply list_elem_of_fmap. exists pm. split; [exact Hv | exact Hpm].
Qed.

(** ** The sandbox and the files it leaves behind *)

Section SandboxFacts.

Variable env : Env.

Lemma chat_run (prompt : string) (w : World) :
  chat env prompt w
  = (agent_chat env (clock w) prompt,
     {| files := files w; clock := S (clock w); prompts := prompts w ++ [prompt] |}).
Proof. reflexivity. Qed.

Lemma backend_run (docker : bool) (path : string) (w : World) :
  exists r,
    (if docker then execute_in_docker env path else execute_in_subprocess env path) w
    = (Ret r, tick w)
    /\ (success r = false -> exists e, exec_errors r = Some e).
Proof.
  destruct docker; unfold execute_in_docker, execute_in_subprocess.
  - destruct (docker_run env (clock w) path (files w)) as [sc logs|e|e];
      eexists; (split; [reflexivity |]); simpl; eauto.
  - destruct (subprocess_run env (clock w) ["python"; path] None (files w)) as [rc so se| |e];
      [destruct (rc =? 0) | |]; eexists; (split; [reflexivity |]); simpl; eauto; discriminate.
Qed.

(** Once the code is written, the temporary file is gone when
    [execute_code] returns, whatever the back end reports. *)
Lemma execute_code_cleans_up (docker : bool) (code file_name : string) (w : World) :
  write_error env code = None ->
  exists r w',
    execute_code env docker code file_name w = (Ret r, w')
    /\ files w' = delete (tmp_name env (clock w)) (files w)
    /\ files w' !! tmp_name env (clock w) = None
    /\ prompts w' = prompts w
    /\ (success r = false -> exists e, exec_errors r = Some e).
Proof.
  intros Hw. unfold execute_code, bind, named_temporary_file, write_text, try_finally, unlink, ret.
  simpl. rewrite Hw. simpl.
  match goal with
  | |- context [(if docker then _ else _) ?w0] =>
      destruct (backend_run docker (tmp_name env (clock w)) w0) as (r & Hr & He)
  end.
  exists r. eexists.
  split; [destruct docker; rewrite Hr; reflexivity |]. simpl.
  rewrite insert_insert_eq, delete_insert_eq.
  repeat split; [apply lookup_delete_eq | exact He].
Qed.

(** When the write raises, the call ends inside the [with] block: the
    file has been created and nothing removes it. *)
Lemma execute_code_leaks (docker : bool) (code file_name : string) (w : World) (e : exn) :
  write_error env code = Some e ->
  exists w',
    execute_code env docker code file_name w = (Raise e, w')
    /\ files w' !! tmp_name env (clock w) = Some ""
    /\ prompts w' = prompts w.
Proof.
  intros Hw. unfold execute_code, bind, named_temporary_file, write_text.
  simpl. rewrite Hw. eexists. split; [reflexivity |]. simpl.
  split; [apply lookup_insert_eq | reflexivity].
Qed.

Lemma execute_code_frame (docker : bool) (code file_name : string) (w w' : World)
    (out : res exec_result) :
  execute_code env docker code file_name w = (out, w') ->
  prompts w' = prompts w
  /\ (forall r, out = Ret r -> success r = false -> exists e, exec_errors r = Some e).
Proof.
  intros H. destruct (write_error env code) as [e|] eqn:Hw.
  - destruct (execute_code_leaks docker code file_name w e Hw) as (w1 & H1 & _ & Hp).
    rewrite H1 in H. injection H as <- <-. split; [exact Hp | discriminate].
  - destruct (execute_code_cleans_up docker code file_name w Hw) as (r & w1 & H1 & _ & _ & Hp & He).
    rewrite H1 in H. injection H as <- <-. split; [exact Hp |].
    intros r' [= <-]. exact He.
Qed.

(** Nothing is left of the temporary directory when [run_tests] returns
    or raises. *)
Lemma run_tests_cleans_up (code : string) (tests : chat_value) (w w' : World)
    (out : res test_result) :
  run_tests env code tests w = (out, w') ->
  prompts w' = prompts w
  /\ (falsy tests = true -> w' = w)
  /\ (falsy tests = false ->
      forall path, under (tmp_name env (clock w)) path = true -> files w' !! path = None).
Proof.
  unfold run_tests. destruct (falsy tests) eqn:Hf.
  - intros [= <- <-]. split; [reflexivity | split; [reflexivity | discriminate]].
  - unfold with_temporary_directory, bind, mkdtemp, try_finally, rmtree.
    simpl. intros H.
    assert (Hgone : forall (fs : gmap string string) path,
               under (tmp_name env (clock w)) path = true ->
               filter (fun kv => under (tmp_name env (clock w)) kv.1 = false) fs !! path = None).
    { intros fs path Hu. apply map_lookup_filter_None. right. intros x _. simpl. congruence. }
    repeat match type of H with
           | context [match ?x with _ => _ end] => destruct x eqn:?
           end;
      injection H as <- <-; simpl;
      (split; [| split; [discriminate | intros _; apply Hgone]]);
      unfold write_text, run_pytest, raise, tick, set_files in *;
      repeat match goal with
             | H : context [match ?x with _ => _ end] |- _ => destruct x eqn:?
             | H : (_, _) = (_, _) |- _ => injection H as <- <-
             end; reflexivity || discriminate.
Qed.

End SandboxFacts.

(** ** What the validators and the back ends do report *)

Lemma syntax_error_is_reported (env : Env) (code : string) (lineno : option Z)
    (msg : string) (text : option string) :
  ast_parse env code = RaisesSyntaxError lineno msg text ->
  validate_syntax env code
  = Ret {| valid := false;
           syn_errors := [ {| se_line := lineno; se_message := msg; se_text := text |} ] |}.
Proof. intros H. unfold validate_syntax. now rewrite H. Qed.

Lemma validate_syntax_raises_iff (env : Env) (code : string) (e : exn) :
  validate_syntax env code = Raise e <-> ast_parse env code = RaisesOther e.
Proof.
  unfold validate_syntax. destruct (ast_parse env code); split; congruence.
Qed.

(** [static_analysis] swallows what the formatters raise. *)
Lemma static_analysis_of_failing_formatters (env : Env) (code : string) (e1 e2 : exn) :
  black_format_str env code = Raise e1 ->
  autopep8_fix_code env code = Raise e2 ->
  static_analysis env code = [].
Proof. intros H1 H2. unfold static_analysis, formatter_issue. now rewrite H1, H2. Qed.

Lemma subprocess_timeout_is_classified (env : Env) (path : string) (w : World) :
  subprocess_run env (clock w) ["python"; path] None (files w) = TimeoutExpired ->
  (execute_in_subprocess env path w).1
  = Ret {| success := false; exec_output := None;
           exec_errors := Some timeout_message; exec_time := None |}.
Proof. intros H. unfold execute_in_subprocess. now rewrite H. Qed.

(** The Docker back end has one answer for a time-out and for any other
    failure with the same message. *)
Lemma docker_timeout_is_not_classified (env : Env) (path : string) (w : World) (e : exn) :
  docker_run env (clock w) path (files w) = WaitTimedOut e ->
  (execute_in_docker env path w).1
  = Ret {| success := false; exec_output := None;
           exec_errors := Some ("Docker execution failed: " +:+ exn_str e);
           exec_time := None |}.
Proof. intros H. unfold execute_in_docker. now rewrite H. Qed.

(** ** One pass through the loop body *)

Ltac split_calls H :=
  repeat (cbn [self calls world] in H;
          match type of H with
          | context [match ?x with _ => _ end] =>
              lazymatch x with
              | context [match _ with _ => _ end] => fail
              | _ => destruct x eqn:?
              end
          end).

Ltac solve_trace :=
  rewrite <- ?app_assoc; simpl;
  first [ apply (trace_fixed Syntax) | apply (trace_fixed Static)
        | apply (trace_fixed Execution) | apply (trace_fixed Tests)
        | apply (trace_fixed Security) | apply trace_perfect
        | apply (trace_gate_raised Syntax) | apply (trace_gate_raised Static)
        | apply (trace_gate_raised Execution) | apply (trace_gate_raised Tests)
        | apply (trace_gate_raised Security)
        | apply (trace_fix_raised Syntax) | apply (trace_fix_raised Static)
        | apply (trace_fix_raised Execution) | apply (trace_fix_raised Tests)
        | apply (trace_fix_raised Security) ].

Ltac calm_down :=
  cbn -[generate_tests run_tests execute_code security_scan static_analysis validate_syntax
        fix_syntax fix_static_issues fix_runtime_errors fix_test_failures fix_security_issues].

Section IterationFacts.

Variable env : Env.
Variables file_name task : string.

(** An iteration that fails a gate raises or consumes exactly one fix
    attempt; what it shows is a prefix of the gate order, then the failed
    gate and its fix. *)
Lemma iteration_outcome (code : string) (st st' : Machine) (out : res step) :
  iteration env file_name task code st = (out, st') ->
  docker_client (self st') = docker_client (self st)
  /\ max_fix_attempts (self st') = max_fix_attempts (self st)
  /\ fix_attempts (self st') = fix_attempts (self st) + (if continues out then 1 else 0)
  /\ (exists evs, calls st' = calls st ++ evs /\ iteration_trace out evs)
  /\ (forall r, out = Ret (Return r) ->
        filename r = file_name /\ content r = code /\ status r = perfect
        /\ iterations r = fix_attempts (self st) /\ security_scan code = []).
Proof.
  unfold iteration, bind, lift, lift_res, log, incr_fix_attempts, set_fix_attempts,
    errors_of, ret, raise.
  intros H. split_calls H;
    try match goal with
        | Hx : execute_code _ _ _ _ _ = (Ret ?r, _), Hs : negb (success ?r) = true,
          He : exec_errors ?r = None |- _ =>
            exfalso; apply execute_code_frame in Hx as [_ Hx];
            destruct (Hx r eq_refl) as [e' He']; [now destruct (success r) | congruence]
        end;
    injection H as <- <-; simpl;
    repeat match goal with
           | Hb : negb ?b = true |- _ => apply negb_true_iff in Hb; rewrite ?Hb in *
           | Hb : negb ?b = false |- _ => apply negb_false_iff in Hb; rewrite ?Hb in *
           end;
    (split; [reflexivity |]); (split; [reflexivity |]); (split; [lia |]);
    (split; [first [ eexists; split; [rewrite <- ?app_assoc; reflexivity | solve_trace]
                   | exists []; split; [symmetry; apply app_nil_r | solve_trace] ] |]);
    intros ? Hret; try discriminate Hret.
  injection Hret as <-. simpl.
  repeat split; try reflexivity.
  match goal with
  | Hs : bool_decide (security_scan code = []) = true |- _ =>
      apply bool_decide_eq_true in Hs; exact Hs
  end.
Qed.

End IterationFacts.

(** ** The whole loop *)






Section LoopFacts.

Variable env : Env.
Variables file_name task : string.

Lemma gives_up_summary (code : string) (st : Machine) :
  max_fix_attempts (self st) <= fix_attempts (self st) ->
  run_summary file_name st (Ret (gave_up file_name code (fix_attempts (self st)))) st.
Proof.
  intros Hguard. split; [reflexivity |]. split; [reflexivity |]. split; [lia |]. split.
  { exists [], []. simpl. rewrite app_nil_r. repeat split; [lia | now constructor]. }
  split; [| discriminate].
  intros ? [= <-]. simpl. repeat split; try reflexivity; try lia; discriminate.
Qed.

Lemma while_loop_runs (fuel : nat) :
  forall (code : string) (st : Machine),
    (budget st <= fuel)%nat ->
    exists out st',
      while_loop env fuel file_name task code st = Some (out, st')
      /\ run_summary file_name st out st'.
Proof.
  induction fuel as [|fuel IH]; intros code st Hfuel; simpl;
    destruct (fix_attempts (self st) <? max_fix_attempts (self st)) eqn:Hguard.
  - unfold budget in Hfuel. apply Z.ltb_lt in Hguard. lia.
  - apply Z.ltb_ge in Hguard. eexists. exists st. split; [reflexivity |].
    now apply gives_up_summary.
  - apply Z.ltb_lt in Hguard.
    destruct (iteration env file_name task code st) as [out1 st1] eqn:Hit.
    destruct (iteration_outcome env file_name task code st st1 out1 Hit)
      as (Hd & Hm & Ha & (evs & Hc & Ht) & Hr).
    destruct out1 as [[code1|r]|e]; simpl in Ha.
    + destruct (IH code1 st1)
        as (out & st' & Hrun & Hd' & Hm' & Hle & (gs & tail & Hc' & Ha' & Hl) & Hr' & He').
      { unfold budget in *. lia. }
      exists out, st'. split; [exact Hrun |].
      inversion Ht as [g c Hg Hevs| | |]; subst evs.
      split; [congruence |]. split; [congruence |]. split; [lia |]. split.
      { exists (g :: gs), tail. simpl. rewrite Hc', Hc, <- !app_assoc.
        repeat split; [| exact Hl]. rewrite Ha', Ha. lia. }
      split.
      { intros rr Hout. destruct (Hr' rr Hout) as (Hf & Hi & Hb & Hp).
        rewrite <- Hm. repeat split; tauto. }
      { intros e Hout. rewrite <- Hm. eauto. }
    + exists (Ret r), st1. split; [reflexivity |].
      destruct (Hr r eq_refl) as (Hf & Hcode & Hs & Hi & Hsec).
      inversion Ht; subst evs.
      split; [exact Hd |]. split; [exact Hm |]. split; [lia |]. split.
      { exists [], (passes gate_order). simpl. repeat split; [exact Hc | lia | now constructor]. }
      split; [| discriminate].
      intros ? [= <-]. repeat split; try assumption; try lia; try congruence.
    + exists (Raise e), st1. split; [reflexivity |].
      split; [exact Hd |]. split; [exact Hm |]. split; [lia |]. split.
      { exists [], evs. simpl. repeat split; [exact Hc | lia |].
        inversion Ht; subst; constructor. }
      split; [discriminate |].
      intros e' _. lia.
  - apply Z.ltb_ge in Hguard. eexists. exists st. split; [reflexivity |].
    now apply gives_up_summary.
Qed.

Lemma perfect_loop_unfold (f : file_info) (st : Machine) :
  perfect_loop env f task st
  = while_loop env (budget (entered st)) (fi_filename f) task (fi_content f) (entered st).
Proof. reflexivity. Qed.

End LoopFacts.

Section Exhaustion.

Variable env : Env.
Variables file_name task : string.


(** A parser that rejects every text and a model that always answers
    with a text keep the loop going for as many passes as one likes. *)
Lemma syntax_never_passes (n : nat) :
  (forall code, exists lineno msg text, ast_parse env code = RaisesSyntaxError lineno msg text) ->
  (forall k prompt, exists s, agent_chat env k prompt = Ret (ChatStr s)) ->
  forall code st, exists code_n st_n,
    repeat_iteration env file_name task n code st = Some (code_n, st_n).
Proof.
  intros Hparse Hchat. induction n as [|n IH]; intros code st; [now exists code, st |].
  destruct (Hparse code) as (lineno & msg & text & Hp).
  simpl. unfold iteration, bind, lift, lift_res, log, incr_fix_attempts, set_fix_attempts, ret.
  rewrite (syntax_error_is_reported env code lineno msg text Hp).
  calm_down. unfold fix_syntax, bind, chat. calm_down.
  match goal with
  | |- context [agent_chat env ?k ?p] => destruct (Hchat k p) as [s ->]
  end.
  calm_down. apply IH.
Qed.

End Exhaustion.

(** ** The claims about the loop *)



Section FirstAttempt.

Variable env : Env.
Variables file_name task code : string.
Variable st : Machine.
Variables (sr : syntax_result) (er : exec_result) (tests : chat_value) (tr : test_result).
Variables w1 w2 w3 : World.

Hypothesis syntax_passes : validate_syntax env code = Ret sr /\ valid sr = true.
Hypothesis static_passes : static_analysis env code = [].
Hypothesis execution_passes :
  execute_code env (docker_client (self st)) code file_name (world st) = (Ret er, w1)
  /\ success er = true.
Hypothesis tests_pass :
  generate_tests env code task w1 = (Ret tests, w2)
  /\ run_tests env code tests w2 = (Ret tr, w3)
  /\ all_pass tr = true.
Hypothesis security_passes : security_scan code = [].

(** The pass in which every gate holds. *)
Lemma iteration_all_pass :
  iteration env file_name task code st
  = (Ret (Return {| filename := file_name; content := code; status := perfect;
                    iterations := fix_attempts (self st);
                    tests_passed := Some (count tr);
                    execution_time := exec_time er;
                    security := Some "clean" |}),
     {| self := self st; calls := calls st ++ passes gate_order; world := w3 |}).
Proof.
  destruct syntax_passes as [Hsyn Hvalid].
  destruct execution_passes as [Hexec Hsuccess].
  destruct tests_pass as (Hgen & Hrun & Hall).
  unfold iteration, bind, lift, lift_res, log, ret.
  rewrite Hsyn. calm_down. rewrite Hvalid. calm_down.
  rewrite static_passes. calm_down.
  rewrite Hexec. calm_down. rewrite Hsuccess. calm_down.
  rewrite Hgen. calm_down. rewrite Hrun. calm_down. rewrite Hall. calm_down.
  rewrite security_passes. calm_down.
  rewrite <- !app_assoc. reflexivity.
Qed.

Lemma first_attempt_prompts :
  exists test_prompt, prompts w3 = prompts (world st) ++ [test_prompt].
Proof.
  destruct execution_passes as [Hexec _].
  destruct tests_pass as (Hgen & Hrun & _).
  apply execute_code_frame in Hexec as [Hp1 _].
  apply run_tests_cleans_up in Hrun as [Hp3 _].
  unfold generate_tests in Hgen. rewrite chat_run in Hgen.
  injection Hgen as _ <-. simpl in Hp3.
  eexists. rewrite Hp3, Hp1. reflexivity.
Qed.

End FirstAttempt.

(** C2. When the content of the artifact passes the syntax validator,
    the static analysis, the sandbox execution, the run of the generated
    tests and the security scan at the first attempt, [perfect_loop]
    returns the status [perfect] with 0 iterations: all five gates are
    seen to pass once, no fix request is made, and the only text sent to
    the model is the request for tests. *)
Theorem first_attempt_perfect (env : Env) (f : file_info) (task : string) (st : Machine)
    (sr : syntax_result) (er : exec_result) (tests : chat_value) (tr : test_result)
    (w1 w2 w3 : World) :
  0 < max_fix_attempts (self st) ->
  validate_syntax env (fi_content f) = Ret sr /\ valid sr = true ->
  static_analysis env (fi_content f) = [] ->
  execute_code env (docker_client (self st)) (fi_content f) (fi_filename f) (world st)
    = (Ret er, w1) /\ success er = true ->
  generate_tests env (fi_content f) task w1 = (Ret tests, w2)
    /\ run_tests env (fi_content f) tests w2 = (Ret tr, w3)
    /\ all_pass tr = true ->
  security_scan (fi_content f) = [] ->
  exists st',
    perfect_loop env f task st
    = Some (Ret {| filename := fi_filename f; content := fi_content f; status := perfect;
                   iterations := 0;
                   tests_passed := Some (count tr);
                   execution_time := exec_time er;
                   security := Some "clean" |}, st')
    /\ fix_attempts (self st') = 0
    /\ calls st' = calls st ++ passes gate_order
    /\ fix_requests (passes gate_order) = 0%nat
    /\ world st' = w3
    /\ exists test_prompt, prompts w3 = prompts (world st) ++ [test_prompt].
Proof.
  intros Hmax Hsyn Hstatic Hexec Htests Hsec.
  rewrite perfect_loop_unfold.
  destruct (budget (entered st)) as [|fuel] eqn:Hb; [unfold budget in Hb; simpl in Hb; lia |].
  simpl while_loop.
  rewrite (iteration_all_pass env (fi_filename f) task (fi_content f) (entered st)
             sr er tests tr w1 w2 w3 Hsyn Hstatic Hexec Htests Hsec).
  replace (0 <? max_fix_attempts (self st)) with true by (symmetry; apply Z.ltb_lt; lia).
  eexists. split; [reflexivity |]. simpl.
  repeat split.
  exact (first_attempt_prompts env (fi_filename f) task (fi_content f) st er tests tr
           w1 w2 w3 Hexec Htests).
Qed.

Lemma first_attempt_perfect_witness :
  exists st',
    perfect_loop calm tidy_file "add one" (fresh false)
    = Some (Ret {| filename := "inc.py"; content := "def inc(x): return x + 1";
                   status := perfect; iterations := 0; tests_passed := Some 2;
                   execution_time := Some 1000; security := Some "clean" |}, st')
    /\ fix_attempts (self st') = 0
    /\ calls st' = passes gate_order.
Proof.
  destruct (first_attempt_perfect calm tidy_file "add one" (fresh false)
              {| valid := true; syn_errors := [] |}
              {| success := true; exec_output := Some "ok"; exec_errors := None;
                 exec_time := Some 1000 |}
              (ChatStr sample_tests)
              {| all_pass := true; count := 2; failures := [];
                 test_output := Some pytest_report |}
              (execute_code calm false (fi_content tidy_file) "inc.py" empty_world).2
              (generate_tests calm (fi_content tidy_file) "add one"
                 (execute_code calm false (fi_content tidy_file) "inc.py" empty_world).2).2
              (run_tests calm (fi_content tidy_file) (ChatStr sample_tests)
                 (generate_tests calm (fi_content tidy_file) "add one"
                    (execute_code calm false (fi_content tidy_file) "inc.py" empty_world).2).2).2)
    as (st' & Hrun & Hatt & Hcalls & _).
  - simpl. lia.
  - split; reflexivity.
  - reflexivity.
  - split; vm_compute; reflexivity.
  - repeat split; vm_compute; reflexivity.
  - reflexivity.
  - exists st'. repeat split; assumption.
Defined.





Section FixRequests.

Variable env : Env.
Variable code : string.


End FixRequests.




(** C5 (amended). When the static analysis gate fails, the loop calls
    [fix_static_issues], which neither consults the model nor reads the
    issue list: it returns the code as [black] and then [autopep8]
    reformat it and leaves the world as it was (no prompt, no external
    call).  The pass consumes one attempt and the loop goes on with a new
    pass, from the syntax gate, on the reformatted code. *)
Theorem static_fix_is_local (env : Env) (file_name task code : string)
    (issues : list static_issue) (st : Machine) (sr : syntax_result) :
  validate_syntax env code = Ret sr /\ valid sr = true ->
  static_analysis env code <> [] ->
  let st' := {| self := {| docker_client := docker_client (self st);
                           fix_attempts := fix_attempts (self st) + 1;
                           max_fix_attempts := max_fix_attempts (self st) |};
                calls := calls st ++ failed_at Static;
                world := world st |} in
  (forall w, fix_static_issues env code issues w = (Ret (reformatted env code), w))
  /\ iteration env file_name task code st = (Ret (Continue (reformatted env code)), st')
  /\ (fix_attempts (self st) < max_fix_attempts (self st) ->
      forall fuel,
        while_loop env (S fuel) file_name task code st
        = while_loop env fuel file_name task (reformatted env code) st').
Proof.
  intros [Hsyn Hvalid] Hstatic st'. split; [reflexivity |].
  assert (Hit : iteration env file_name task code st
                = (Ret (Continue (reformatted env code)), st')).
  { unfold iteration, bind, lift, lift_res, log, ret, incr_fix_attempts, set_fix_attempts.
    rewrite Hsyn. calm_down. rewrite Hvalid. calm_down.
    rewrite bool_decide_eq_false_2 by exact Hstatic. calm_down.
    subst st'. rewrite <- !app_assoc. reflexivity. }
  split; [exact Hit |].
  intros Hguard fuel. simpl while_loop. rewrite Hit.
  now replace (fix_attempts (self st) <? max_fix_attempts (self st)) with true
    by (symmetry; apply Z.ltb_lt; exact Hguard).
Qed.

Lemma static_fix_is_local_witness :
  iteration untidy "f.py" "assign" "x=1" (fresh false)
  = (Ret (Continue "x = 1"),
     {| self := {| docker_client := false; fix_attempts := 1; max_fix_attempts := 10 |};
        calls := failed_at Static;
        world := empty_world |}).
Proof.
  apply (proj1 (proj2 (static_fix_is_local untidy "f.py" "assign" "x=1" [] (fresh false)
                         {| valid := true; syn_errors := [] |}
                         (conj eq_refl eq_refl)
                         ltac:(vm_compute; discriminate)))).
Defined.

(** The claim as the specification has it fails: the static gate fails on
    ["x=1"], its fix is called, and no prompt has reached the model. *)
Lemma static_fix_sends_no_request :
  exists st',
    iteration untidy "f.py" "assign" "x=1" (fresh false) = (Ret (Continue "x = 1"), st')
    /\ calls st' = [Verdict Syntax true; Verdict Static false; FixRequest Static]
    /\ prompts (world st') = []
    /\ clock (world st') = 0%nat.
Proof. eexists. vm_compute. repeat split; reflexivity. Qed.

(** C6 (the code departs from the claim). With the Docker back end a run
    that exceeds the ten seconds comes back as the generic
    ["Docker execution failed: ..."], whatever the client's exception
    says, while the subprocess back end answers with the message that
    names the infinite loop. *)
Theorem docker_timeout_is_generic :
  let code := "while True: pass" in
  (execute_code endless true code "loop.py" empty_world).1
  = Ret {| success := false; exec_output := None;
           exec_errors := Some ("Docker execution failed: " +:+ exn_str read_timed_out);
           exec_time := None |}
  /\ (execute_code endless false code "loop.py" empty_world).1
     = Ret {| success := false; exec_output := None;
              exec_errors := Some timeout_message; exec_time := None |}
  /\ PyStr.contains "infinite loop" timeout_message = true
  /\ PyStr.contains "infinite loop" ("Docker execution failed: " +:+ exn_str read_timed_out) = false
  /\ forall e, "Docker execution failed: " +:+ exn_str e <> timeout_message.
Proof.
  repeat split; try (vm_compute; reflexivity).
  intros e. discriminate.
Qed.

(** C7 (the code departs from the claim). [validate_syntax] catches
    [SyntaxError] only: when the parser raises something else, here the
    [ValueError] for a NUL character, the exception reaches the caller of
    [validate_syntax] and of [perfect_loop]. *)
Theorem validate_syntax_lets_exceptions_out :
  let code := "x = 1" +:+ nul in
  validate_syntax strict_parser code = Raise null_bytes
  /\ exists st',
       perfect_loop strict_parser {| fi_filename := "f.py"; fi_content := code |} "assign"
         (fresh false) = Some (Raise null_bytes, st').
Proof. split; [vm_compute; reflexivity |]. eexists. vm_compute. reflexivity. Qed.

(** C8 (the code departs from the claim). When writing the code to the
    temporary file raises, [execute_code] ends inside the [with] block,
    before its [try ... finally]: the file it created is still there. *)
Theorem execute_code_leaves_file_behind :
  let code := "print('" +:+ check_mark +:+ "')" in
  exists w',
    execute_code narrow_locale false code "f.py" empty_world = (Raise charmap_error, w')
    /\ files empty_world !! tmp_path 0 = None
    /\ files w' !! tmp_path 0 = Some "".
Proof. eexists. vm_compute. repeat split; reflexivity. Qed.

(** ** The verdicts on the suggestions *)




Lemma append_unless_raised_from (l : list (gmap string string)) (tag line : string)
    (acc : list (gmap string string)) :
  Forall (judged_from l) acc ->
  Forall (judged_from l) (append_unless_raised acc (verdict_entry tag l line)).
Proof.
  intros Hacc. unfold verdict_entry.
  destruct (PyStr.int _) as [idx|]; [| exact Hacc].
  destruct ((0 <=? idx) && (idx <? Z.of_nat (length l))); [| exact Hacc].
  destruct (l !! Z.to_nat idx) as [suggestion|] eqn:Hl; [| exact Hacc].
  simpl. apply Forall_app. split; [exact Hacc |].
  apply Forall_singleton. exists (Z.to_nat idx), suggestion. eexists. split; [exact Hl | reflexivity].
Qed.

Lemma decisions_name_suggestions (l : list (gmap string string)) (lines : list string) :
  forall acc,
    Forall (judged_from l) acc.1 -> Forall (judged_from l) acc.2 ->
    Forall (judged_from l) (fold_left (judge l) lines acc).1
    /\ Forall (judged_from l) (fold_left (judge l) lines acc).2.
Proof.
  induction lines as [|line lines IH]; intros [approved rejected] Ha Hr; [now split |].
  simpl in *. apply IH; unfold judge;
    destruct (PyStr.startswith (PyStr.strip line) "APPROVE:");
    [| destruct (PyStr.startswith (PyStr.strip line) "REJECT:") | |
     destruct (PyStr.startswith (PyStr.strip line) "REJECT:")];
    simpl; try assumption; now apply append_unless_raised_from.
Qed.



(** C10. The security scan reports exactly the patterns of the deny list
    that occur in the text as substrings, once each, in the order of the
    list and with severity [high].  Where the text stands (comment,
    string literal, longer identifier) plays no part: ["retrieval("]
    contains ["eval("].  A text in which a pattern occurs is never
    returned with the status [perfect]. *)
Theorem security_scan_substrings (code : string) :
  security_scan code
  = map vulnerability_of (filter (fun pm => PyStr.contains pm.1 code = true) dangerous_patterns)
  /\ (forall v, v ∈ security_scan code
               <-> exists pm, pm ∈ dangerous_patterns /\ occurs pm.1 code
                              /\ v = vulnerability_of pm)
  /\ NoDup (map pattern (security_scan code))
  /\ (security_scan code = []
      <-> forall pm, pm ∈ dangerous_patterns -> ~ occurs pm.1 code)
  /\ occurs "eval(" "retrieval("
  /\ (forall env f task st r st',
        perfect_loop env f task st = Some (Ret r, st') ->
        status r = perfect ->
        forall pm, pm ∈ dangerous_patterns -> ~ occurs pm.1 (content r)).
Proof.
  assert (Hempty : forall c, security_scan c = []
                             <-> forall pm, pm ∈ dangerous_patterns -> ~ occurs pm.1 c).
  { intros c. split.
    - intros Hnil pm Hin Hocc.
      assert (Hv : vulnerability_of pm ∈ security_scan c)
        by (apply in_scan_patterns; eauto).
      rewrite Hnil in Hv. now apply elem_of_nil in Hv.
    - intros Hnone. destruct (security_scan c) as [|v vs] eqn:Hscan; [reflexivity |].
      assert (Hv : v ∈ security_scan c) by (rewrite Hscan; apply list_elem_of_here).
      apply in_scan_patterns in Hv as (pm & Hin & Hocc & _).
      now destruct (Hnone pm Hin). }
  split; [apply scan_patterns_filter |].
  split; [intros v; apply in_scan_patterns |].
  split; [apply scan_patterns_nodup, patterns_distinct |].
  split; [apply Hempty |].
  split; [now exists "retri", "" |].
  intros env f task st r st' Hrun Hperfect.
  rewrite perfect_loop_unfold in Hrun.
  destruct (while_loop_runs env (fi_filename f) task (budget (entered st))
              (fi_content f) (entered st) (le_n _))
    as (out & st1 & Hrun' & _ & _ & _ & _ & Hr & _).
  rewrite Hrun in Hrun'. injection Hrun' as <- <-.
  destruct (Hr r eq_refl) as (_ & _ & _ & Hp).
  apply Hempty. now apply Hp.
Qed.

(** ** Further properties of the validators and of the decision *)





Lemma filter_sublist_impl {A} (P Q : A -> Prop) `{forall x, Decision (P x)}
    `{forall x, Decision (Q x)} (l : list A) :
  (forall x, P x -> Q x) -> filter P l `sublist_of` filter Q l.
Proof.
  intros Himpl. induction l as [|x l IH]; [constructor |].
  rewrite !filter_cons. destruct (decide (P x)) as [HP|HP].
  - rewrite decide_True by now apply Himpl. now constructor.
  - destruct (decide (Q x)); [now constructor | exact IH].
Qed.

Lemma occurs_trans (a b c : string) : occurs a b -> occurs b c -> occurs a c.
Proof.
  intros (pre1 & post1 & ->) (pre2 & post2 & ->).
  exists (pre2 +:+ pre1), (post1 +:+ post2).
  assert (Hassoc : forall x y z : string, (x +:+ y) +:+ z = x +:+ y +:+ z)
    by (intros x y z; induction x as [|ch x IH]; simpl; [reflexivity | now rewrite IH]).
  now rewrite !Hassoc.
Qed.

(** X2. Text around a code never hides a finding: every vulnerability the
    scan reports for a code is reported for any text that contains the
    code.  No scan reports more findings than the deny list has
    patterns. *)
Theorem security_scan_monotone (code text : string) :
  occurs code text ->
  (forall v, v ∈ security_scan code -> v ∈ security_scan text)
  /\ (length (security_scan code) <= length (security_scan text) <= 7)%nat.
Proof.
  intros Hocc.
  assert (Hincl : forall v, v ∈ security_scan code -> v ∈ security_scan text).
  { intros v Hv. apply in_scan_patterns in Hv as (pm & Hin & Hpm & ->).
    apply in_scan_patterns. exists pm. repeat split; [exact Hin |].
    now apply (occurs_trans _ code). }
  split; [exact Hincl |]. split.
  - unfold security_scan. rewrite !scan_patterns_filter, !length_map.
    apply sublist_length, filter_sublist_impl.
    intros pm Hc. apply contains_occurs, (occurs_trans _ code); [| exact Hocc].
    now apply contains_occurs.
  - unfold security_scan. rewrite scan_patterns_filter, length_map.
    etransitivity; [apply length_filter | reflexivity].
Qed.

Lemma security_scan_monotone_witness :
  {| pattern := "eval("; message := "Use of eval is dangerous"; severity := "high" |}
    ∈ security_scan "# a comment before eval(x) and one after".
Proof.
  apply (proj1 (security_scan_monotone "eval(x)" "# a comment before eval(x) and one after"
                  ltac:(now exists "# a comment before ", " and one after"))).
  vm_compute. apply list_elem_of_here.
Defined.

Lemma parse_decisions_lists (l : list (gmap string string)) (aria_response : chat_value) :
  approved_suggestions (parse_decisions l aria_response)
  = (fold_left (judge l) (verdict_lines aria_response) ([], [])).1
  /\ rejected_suggestions (parse_decisions l aria_response)
     = (fold_left (judge l) (verdict_lines aria_response) ([], [])).2
  /\ implement_suggestions (parse_decisions l aria_response)
     = bool_decide (0 < length (approved_suggestions (parse_decisions l aria_response)))%nat.
Proof.
  unfold parse_decisions.
  now destruct (fold_left (judge l) (verdict_lines aria_response) ([], [])).
Qed.

Lemma append_unless_raised_length (acc : list (gmap string string))
    (body : res (option (gmap string string))) :
  (length acc <= length (append_unless_raised acc body) <= S (length acc))%nat.
Proof.
  destruct body as [[entry|]|e]; simpl; rewrite ?length_app; simpl; lia.
Qed.

Lemma judge_length (l : list (gmap string string)) (line : string)
    (acc : list (gmap string string) * list (gmap string string)) :
  (length (judge l acc line).1 + length (judge l acc line).2
   <= S (length acc.1 + length acc.2))%nat.
Proof.
  destruct acc as [approved rejected]. unfold judge.
  destruct (PyStr.startswith (PyStr.strip line) "APPROVE:");
    [| destruct (PyStr.startswith (PyStr.strip line) "REJECT:")]; simpl; [| | lia].
  - pose proof (append_unless_raised_length approved
                  (verdict_entry "APPROVE:" l (PyStr.strip line))). lia.
  - pose proof (append_unless_raised_length rejected
                  (verdict_entry "REJECT:" l (PyStr.strip line))). lia.
Qed.

Lemma judged_length (l : list (gmap string string)) (lines : list string) :
  forall acc,
    (length (fold_left (judge l) lines acc).1 + length (fold_left (judge l) lines acc).2
     <= length lines + (length acc.1 + length acc.2))%nat.
Proof.
  induction lines as [|line lines IH]; intros acc; simpl; [lia |].
  pose proof (IH (judge l acc line)). pose proof (judge_length l line acc). lia.
Qed.

(** X3. Whatever the model answers to the request for verdicts, every
    approved and every rejected entry is a suggestion of the list with
    the key [aria_reasoning] added, there are no more entries than the
    answer has lines, and [implement_suggestions] is set exactly when
    something is approved.  An answer that is no text approves and
    rejects nothing. *)
Theorem decisions_come_from_suggestions (l : list (gmap string string))
    (aria_response : chat_value) :
  let d := parse_decisions l aria_response in
  Forall (judged_from l) (approved_suggestions d)
  /\ Forall (judged_from l) (rejected_suggestions d)
  /\ (forall entry, entry ∈ approved_suggestions d ++ rejected_suggestions d ->
        is_Some (entry !! "aria_reasoning"))
  /\ (length (approved_suggestions d) + length (rejected_suggestions d)
      <= length (verdict_lines aria_response))%nat
  /\ (implement_suggestions d = true <-> approved_suggestions d <> [])
  /\ ((forall s, aria_response <> ChatStr s) ->
        approved_suggestions d = [] /\ rejected_suggestions d = []
        /\ implement_suggestions d = false).
Proof.
  intros d. subst d.
  destruct (parse_decisions_lists l aria_response) as (Ha & Hr & Hi).
  destruct (decisions_name_suggestions l (verdict_lines aria_response) ([], []))
    as [Hfrom1 Hfrom2]; [constructor | constructor |].
  rewrite <- Ha in Hfrom1. rewrite <- Hr in Hfrom2.
  split; [exact Hfrom1 |]. split; [exact Hfrom2 |]. split.
  { intros entry Hin.
    assert (Hj : judged_from l entry).
    { apply elem_of_app in Hin as [Hin | Hin];
        [eapply (proj1 (Forall_forall _ _) Hfrom1) | eapply (proj1 (Forall_forall _ _) Hfrom2)];
        exact Hin. }
    destruct Hj as (idx & suggestion & reason & _ & ->).
    rewrite lookup_insert_eq. eauto. }
  split.
  { rewrite Ha, Hr.
    pose proof (judged_length l (verdict_lines aria_response) ([], [])). simpl in *. lia. }
  split.
  { rewrite Hi. destruct (approved_suggestions (parse_decisions l aria_response)); simpl.
    - split; [discriminate | congruence].
    - split; [discriminate | reflexivity]. }
  intros Hnot. destruct aria_response as [s|m|]; [now destruct (Hnot s) | |];
    repeat split; reflexivity.
Qed.

(** ** The suggestions of the other models *)







(** ** The final verification *)

Lemma split_nonempty (c : ascii) (s : string) : (1 <= length (PyStr.split c s))%nat.
Proof.
  induction s as [|a s IH]; simpl; [lia |].
  destruct (Ascii.eqb a c); simpl; [lia |].
  destruct (PyStr.split c s); simpl in *; lia.
Qed.

Lemma total_lines_bound (files : list artifact) :
  Z.of_nat (length files) <= sum_list (map (fun f => line_count (content (art f))) files).
Proof.
  induction files as [|f files IH]; [reflexivity |].
  cbn [map sum_list]. rewrite length_cons, Nat2Z.inj_succ.
  pose proof (split_nonempty "010"%char (content (art f))). unfold line_count in *. lia.
Qed.

Lemma all_tested_iff (files : list artifact) :
  forallb (fun f => 0 <? default 0 (tests_passed (art f))) files = true <-> Forall tested files.
Proof.
  rewrite forallb_forall, Forall_forall. unfold tested.
  split; intros H f Hin.
  - apply list_elem_of_In in Hin. specialize (H f Hin). apply Z.ltb_lt in H.
    destruct (tests_passed (art f)) as [n|]; simpl in H; [eauto | lia].
  - apply list_elem_of_In in Hin. destruct (H f Hin) as (n & -> & Hn). now apply Z.ltb_lt.
Qed.

(** X5. The final verification always reports [verified]; it counts the
    files and at least one line for each; [all_tested], and with it a
    coverage of ["100%"] instead of ["partial"], holds exactly when every
    file has a positive [tests_passed], so not when a file came out of the
    loop as [best_effort] or without tests, and always when there is no
    file at all. *)
Theorem final_verification_counts (files : list artifact) :
  let v := final_verification files in
  verified v = true
  /\ total_files (verified_metrics v) = Z.of_nat (length files)
  /\ total_files (verified_metrics v) <= total_lines (verified_metrics v)
  /\ (all_tested (verified_metrics v) = true <-> Forall tested files)
  /\ (coverage v = "100%" <-> Forall tested files)
  /\ (coverage v = "100%" \/ coverage v = "partial")
  /\ (all_secure (verified_metrics v) = true
      <-> Forall (fun f => security (art f) = Some "clean") files)
  /\ (forall f, f ∈ files -> tests_passed (art f) = None \/ tests_passed (art f) = Some 0 ->
        coverage v = "partial")
  /\ (files = [] -> coverage v = "100%").
Proof.
  intros v. subst v. unfold final_verification. cbn [verified verified_metrics coverage
    total_files total_lines all_tested all_secure all_optimized].
  pose proof (all_tested_iff files) as Htested.
  split; [reflexivity |]. split; [reflexivity |]. split; [apply total_lines_bound |].
  split; [exact Htested |].
  assert (Hcov : (if forallb (fun f => 0 <? default 0 (tests_passed (art f))) files
                  then "100%" else "partial") = "100%" <-> Forall tested files).
  { rewrite <- Htested. destruct (forallb _ files); split; congruence. }
  assert (Hdich : (if forallb (fun f => 0 <? default 0 (tests_passed (art f))) files
                   then "100%" else "partial") = "100%"
                  \/ (if forallb (fun f => 0 <? default 0 (tests_passed (art f))) files
                      then "100%" else "partial") = "partial")
    by (destruct (forallb _ files); auto).
  split; [exact Hcov |].
  split; [exact Hdich |].
  split.
  { rewrite forallb_forall, Forall_forall. split; intros H f Hin.
    - apply list_elem_of_In in Hin. specialize (H f Hin).
      now apply bool_decide_eq_true in H.
    - apply list_elem_of_In in Hin. specialize (H f Hin).
      now apply bool_decide_eq_true. }
  split.
  { intros f Hin Hnone.
    destruct Hdich as [E | E]; [| exact E].
    apply Hcov in E. apply (proj1 (Forall_forall _ _) E) in Hin as (n & Hn & Hpos).
    destruct Hnone as [Hnone | Hnone]; rewrite Hnone in Hn; [discriminate |].
    injection Hn as <-. lia. }
  intros ->. reflexivity.
Qed.

(** ** Further properties of the sandbox *)

Ltac result_shape :=
  split; [intros Hs; (discriminate Hs || eauto)
         | split; [intros Hs; (discriminate Hs || eauto)
                  | intros Hs; first [split; reflexivity | destruct Hs as [? [=]]]]].

Section SandboxExtras.

Variable env : Env.

Lemma backend_shape (docker : bool) (path : string) (w : World) :
  exists r,
    (if docker then execute_in_docker env path else execute_in_subprocess env path) w
    = (Ret r, tick w)
    /\ (success r = false -> exists e, exec_errors r = Some e)
    /\ (success r = true -> is_Some (exec_output r))
    /\ (is_Some (exec_time r) -> success r = true /\ docker = false).
Proof.
  destruct docker; unfold execute_in_docker, execute_in_subprocess.
  - destruct (docker_run env (clock w) path (files w)) as [sc logs|e|e];
      eexists; (split; [reflexivity |]); simpl; result_shape.
  - destruct (subprocess_run env (clock w) ["python"; path] None (files w)) as [rc so se| |e];
      [destruct (rc =? 0) | |]; eexists; (split; [reflexivity |]); simpl; result_shape.
Qed.

Lemma execute_code_result (docker : bool) (code file_name : string) (w w' : World)
    (r : exec_result) :
  execute_code env docker code file_name w = (Ret r, w') ->
  (success r = false -> exists e, exec_errors r = Some e)
  /\ (success r = true -> is_Some (exec_output r))
  /\ (is_Some (exec_time r) -> success r = true /\ docker = false).
Proof.
  unfold execute_code, bind, named_temporary_file, write_text, try_finally, unlink, ret.
  simpl. destruct (write_error env code); [discriminate |]. simpl.
  match goal with
  | |- context [(if docker then _ else _) ?w0] =>
      destruct (backend_shape docker (tmp_name env (clock w)) w0) as (r0 & Hr & Hshape)
  end.
  destruct docker; rewrite Hr; intros [= <- <-]; exact Hshape.
Qed.

End SandboxExtras.



(** X7. Every result of [execute_code] that reports a failure carries an
    [errors] text, so the subscript [exec_result["errors"]] of the loop
    cannot fail; a success carries an output; and an execution time is
    reported only by a successful run of the subprocess back end, never
    by Docker. *)
Theorem failed_execution_has_errors (env : Env) (docker : bool) (code file_name : string)
    (w w' : World) (r : exec_result) :
  execute_code env docker code file_name w = (Ret r, w') ->
  (success r = false -> exists e, exec_errors r = Some e)
  /\ (success r = true -> is_Some (exec_output r))
  /\ (is_Some (exec_time r) -> success r = true /\ docker = false).
Proof. apply execute_code_result. Qed.

Lemma failed_execution_has_errors_witness :
  exists e,
    exec_errors (match (execute_code endless false "while True: pass" "loop.py" empty_world).1 with
                 | Ret r => r
                 | Raise _ => {| success := true; exec_output := None; exec_errors := None;
                                 exec_time := None |}
                 end) = Some e.
Proof.
  destruct (execute_code endless false "while True: pass" "loop.py" empty_world)
    as [[r|e] w'] eqn:Hrun; [| vm_compute in Hrun; discriminate].
  apply (proj1 (failed_execution_has_errors endless false "while True: pass" "loop.py"
                  empty_world w' r Hrun)).
  vm_compute in Hrun. injection Hrun as <- _. reflexivity.
Defined.

(** X8. When the model wrote no tests (an empty text, an empty mapping or
    [None]) [run_tests] reports a pass with a count of 0 and touches
    nothing.  Otherwise, however the call ends, nothing is left of its
    temporary directory; and in no case does it send a prompt. *)
Theorem run_tests_leaves_no_directory (env : Env) (code : string) (tests : chat_value)
    (w : World) :
  (falsy tests = true ->
     run_tests env code tests w
     = (Ret {| all_pass := true; count := 0; failures := []; test_output := None |}, w))
  /\ (falsy tests = false ->
      forall path, under (tmp_name env (clock w)) path = true ->
                   files (run_tests env code tests w).2 !! path = None)
  /\ prompts (run_tests env code tests w).2 = prompts w.
Proof.
  destruct (run_tests env code tests w) as [out w'] eqn:Hrun.
  destruct (run_tests_cleans_up env code tests w w' out Hrun) as (Hp & Hsame & Hgone).
  split; [| split; [exact Hgone | exact Hp]].
  intros Hf. unfold run_tests in Hrun. rewrite Hf in Hrun. now rewrite <- Hrun.
Qed.

(** X9. With a text of tests and texts that can be written, [run_tests]
    returns, whatever becomes of [pytest]: [all_pass] holds exactly when
    the process ends with status 0, and then there is no failure line;
    on any status every failure line is a line of the output that
    contains [FAILED], and the count is at most the number of output
    lines; a time-out or a process that cannot be started gives a failing
    result with a count of 0 and the exception's text as its one
    failure. *)
Theorem run_tests_reports (env : Env) (code t : string) (w : World) :
  t <> "" -> write_error env code = None -> write_error env t = None ->
  let tmpdir := tmp_name env (clock w) in
  let test_path := tmpdir +:+ "/test_module.py" in
  let outcome :=
    subprocess_run env (S (clock w)) ["pytest"; test_path; "-v"] (Some tmpdir)
      (<[test_path := t]> (<[tmpdir +:+ "/module.py" := code]> (<[tmpdir := ""]> (files w)))) in
  exists r w',
    run_tests env code (ChatStr t) w = (Ret r, w')
    /\ (all_pass r = true <-> exists stdout stderr, outcome = Completed 0 stdout stderr)
    /\ (all_pass r = true -> failures r = [])
    /\ (forall rc stdout stderr, outcome = Completed rc stdout stderr ->
          Forall (fun line => occurs "FAILED" line /\ line ∈ PyStr.split "010"%char stdout)
            (failures r)
          /\ 0 <= count r <= Z.of_nat (length (PyStr.split "010"%char stdout)))
    /\ (outcome = TimeoutExpired ->
          all_pass r = false /\ count r = 0
          /\ failures r = [exn_str (pytest_timeout test_path)])
    /\ (forall e, outcome = ProcError e ->
          all_pass r = false /\ count r = 0 /\ failures r = [exn_str e]).
Proof.
  intros Ht Hcode Htext tmpdir test_path outcome.
  assert (Hne : String.eqb t "" = false) by now apply String.eqb_neq.
  unfold run_tests, falsy. rewrite Hne.
  unfold with_temporary_directory, bind, mkdtemp, try_finally, rmtree, write_text, run_pytest.
  simpl. rewrite Hcode. simpl. rewrite Htext. simpl.
  fold tmpdir. fold test_path. fold outcome.
  eexists. eexists. split; [reflexivity |].
  destruct outcome as [rc stdout stderr| |e] eqn:Hout; simpl.
  - split.
    { split.
      - intros Hrc. apply Z.eqb_eq in Hrc. subst rc. eauto.
      - intros (so & se & [= -> _ _]). reflexivity. }
    split; [intros ->; reflexivity |].
    split.
    { intros rc' so se [= <- <- <-]. split.
      - destruct (rc =? 0); [constructor |].
        apply Forall_forall. intros line Hin.
        apply list_elem_of_filter in Hin as [Hc Hin]. split; [| exact Hin].
        now apply contains_occurs.
      - split; [lia |]. apply inj_le, length_filter. }
    split; [discriminate | discriminate].
  - split; [split; [discriminate | intros (so & se & [=])] |].
    split; [discriminate |]. split; [discriminate |].
    split; [auto | discriminate].
  - split; [split; [discriminate | intros (so & se & [=])] |].
    split; [discriminate |]. split; [discriminate |].
    split; [discriminate |]. intros e' [= <-]. auto.
Qed.

Lemma run_tests_reports_witness :
  exists r w',
    run_tests calm "def inc(x): return x + 1" (ChatStr sample_tests) empty_world = (Ret r, w')
    /\ failures r = [].
Proof.
  destruct (run_tests_reports calm "def inc(x): return x + 1" sample_tests empty_world
              ltac:(discriminate) eq_refl eq_refl)
    as (r & w' & Hrun & Hpass & Hnone & _).
  exists r, w'. split; [exact Hrun |].
  apply Hnone, Hpass. eexists. eexists. reflexivity.
Defined.

(** ** The integration check *)






Lemma with_temporary_directory_cleans_up {A} (env : Env) (body : string -> W A) (w : World) :
  forall path,
    under (tmp_name env (clock w)) path = true ->
    files (with_temporary_directory env body w).2 !! path = None.
Proof.
  intros path Hu. unfold with_temporary_directory, bind, mkdtemp, try_finally, rmtree.
  simpl. destruct (body _ _) as [out w1]. simpl.
  apply map_lookup_filter_None. right. intros x _. simpl. congruence.
Qed.

(** X10. However [test_integration] ends, nothing is left of its
    temporary directory. *)
Theorem test_integration_cleans_up (env : Env) (l : list loop_result) (w : World)
    (path : string) :
  under (tmp_name env (clock w)) path = true ->
  files (test_integration env l w).2 !! path = None.
Proof. intros Hu. now apply with_temporary_directory_cleans_up. Qed.

Lemma test_integration_cleans_up_witness :
  files (test_integration calm
           [gave_up "main.py" "print(1)" 10; gave_up "util.py" "x = 1" 10] empty_world).2
    !! (tmp_path 0 +:+ "/main.py") = None.
Proof. apply test_integration_cleans_up. reflexivity. Defined.






(** X13. The integration phase never changes the files: with fewer than
    two files nothing happens at all, and otherwise, passed or failed,
    the files that come out are the files that went in
    ([fix_integration] returns them as they are). *)
Theorem integration_never_changes_files (env : Env) (l : list loop_result) (w : World) :
  (forall out w', integration_phase env l w = (Ret out, w') -> out = l)
  /\ ((length l <= 1)%nat -> integration_phase env l w = (Ret l, w))
  /\ (forall errors, fix_integration l errors w = (Ret l, w)).
Proof.
  unfold integration_phase. split; [| split].
  - intros out w'. case_bool_decide; [| now intros [= <- _]].
    unfold bind. destruct (test_integration env l w) as [[r|e] w1]; [| discriminate].
    destruct (negb (integration_success r)); now intros [= <- _].
  - intros Hshort. rewrite bool_decide_eq_false_2 by lia. reflexivity.
  - reflexivity.
Qed.

(** ** Further properties of the loop *)

Section LoopExtras.

Variable env : Env.
Variables file_name task : string.

(** What the pass that returns has seen. *)
Lemma iteration_return_gates (code : string) (st st' : Machine) (r : loop_result) :
  iteration env file_name task code st = (Ret (Return r), st') ->
  content r = code
  /\ ast_parse env code = Parsed
  /\ static_analysis env code = []
  /\ security_scan code = []
  /\ is_Some (tests_passed r)
  /\ security r = Some "clean".
Proof.
  unfold iteration, bind, lift, lift_res, log, incr_fix_attempts, set_fix_attempts,
    errors_of, ret, raise.
  intros H. split_calls H; try discriminate H.
  injection H as <- _. simpl.
  repeat match goal with
         | Hb : negb ?b = false |- _ => apply negb_false_iff in Hb
         | Hb : bool_decide _ = true |- _ => apply bool_decide_eq_true in Hb
         end.
  repeat split; try assumption; [| eauto].
  match goal with
  | Hv : validate_syntax env code = Ret ?a, Ha : valid ?a = true |- _ =>
      unfold validate_syntax in Hv; destruct (ast_parse env code);
      [reflexivity | injection Hv as <-; discriminate Ha | discriminate Hv]
  end.
Qed.

Lemma while_loop_results (fuel : nat) :
  forall (code : string) (st st' : Machine) (r : loop_result),
    while_loop env fuel file_name task code st = Some (Ret r, st') ->
    (status r = perfect ->
       ast_parse env (content r) = Parsed
       /\ static_analysis env (content r) = []
       /\ security_scan (content r) = []
       /\ is_Some (tests_passed r)
       /\ security r = Some "clean")
    /\ (status r = best_effort ->
          tests_passed r = None /\ execution_time r = None /\ security r = None).
Proof.
  induction fuel as [|fuel IH]; intros code st st' r; simpl;
    destruct (fix_attempts (self st) <? max_fix_attempts (self st)); try discriminate;
    try (intros [= <- _]; split; [discriminate | now repeat split]).
  destruct (iteration env file_name task code st) as [[[code1|r1]|e] st1] eqn:Hit;
    try discriminate.
  - apply IH.
  - intros [= <- <-].
    destruct (iteration_outcome env _ _ _ _ _ _ Hit) as (_ & _ & _ & _ & Hr).
    destruct (Hr r1 eq_refl) as (_ & _ & Hs & _).
    destruct (iteration_return_gates code st st1 r1 Hit) as (-> & Hp & Hst & Hsec & Ht & Hc).
    split; [now repeat split | congruence].
Qed.

Hypothesis chat_answers_text : forall n prompt, exists s, agent_chat env n prompt = Ret (ChatStr s).
Hypothesis parser_raises_syntax_errors_only : forall code e, ast_parse env code <> RaisesOther e.
Hypothesis texts_can_be_written : forall text, write_error env text = None.

Lemma chat_fix_returns (code prompt : string) (w w' : World) (e : exn) :
  (result <- chat env prompt ;; fixed_code result code)%py w <> (Raise e, w').
Proof.
  unfold bind. rewrite chat_run. destruct (chat_answers_text (clock w) prompt) as [s ->].
  discriminate.
Qed.

Lemma generate_tests_returns (code : string) (w : World) :
  exists s w', generate_tests env code task w = (Ret (ChatStr s), w').
Proof.
  unfold generate_tests. rewrite chat_run.
  match goal with
  | |- context [agent_chat env (clock w) ?p] =>
      destruct (chat_answers_text (clock w) p) as [s Hs]
  end.
  exists s. eexists. rewrite Hs. reflexivity.
Qed.

Lemma run_tests_returns (code s : string) (w w' : World) (e : exn) :
  run_tests env code (ChatStr s) w <> (Raise e, w').
Proof.
  unfold run_tests, falsy. destruct (String.eqb s ""); [discriminate |].
  unfold with_temporary_directory, bind, mkdtemp, try_finally, rmtree, write_text, run_pytest.
  simpl. rewrite !texts_can_be_written. discriminate.
Qed.

Lemma iteration_returns (code : string) (st st' : Machine) (e : exn) :
  iteration env file_name task code st <> (Raise e, st').
Proof.
  unfold iteration, bind, lift, lift_res, log, incr_fix_attempts, set_fix_attempts,
    errors_of, ret, raise.
  intros H. split_calls H; try discriminate H;
    try match goal with
        | Hv : validate_syntax env code = Raise ?e0 |- _ =>
            apply validate_syntax_raises_iff in Hv;
            now apply parser_raises_syntax_errors_only in Hv
        | Hx : execute_code env ?d code file_name ?w0 = (Raise _, _) |- _ =>
            destruct (execute_code_cleans_up env d code file_name w0
                        (texts_can_be_written code)) as (? & ? & Hok & _);
            rewrite Hok in Hx; discriminate Hx
        | Hx : execute_code _ _ _ _ _ = (Ret ?r, _), Hs : negb (success ?r) = true,
          He : exec_errors ?r = None |- _ =>
            apply execute_code_frame in Hx as [_ Hx];
            destruct (Hx r eq_refl) as [e' He']; [now destruct (success r) | congruence]
        | Hg : generate_tests env code task ?w0 = (Raise _, _) |- _ =>
            destruct (generate_tests_returns code w0) as (? & ? & Hs);
            rewrite Hs in Hg; discriminate Hg
        | Hg : generate_tests env code task ?w0 = (Ret ?v, _),
          Hr : run_tests env code ?v _ = (Raise _, _) |- _ =>
            destruct (generate_tests_returns code w0) as (? & ? & Hs);
            rewrite Hs in Hg; injection Hg as <- <-;
            now apply run_tests_returns in Hr
        | Hf : fix_syntax env _ _ _ = (Raise _, _) |- _ => now apply chat_fix_returns in Hf
        | Hf : fix_runtime_errors env _ _ _ _ = (Raise _, _) |- _ =>
            now apply chat_fix_returns in Hf
        | Hf : fix_test_failures env _ _ _ = (Raise _, _) |- _ =>
            now apply chat_fix_returns in Hf
        | Hf : fix_security_issues env _ _ _ = (Raise _, _) |- _ =>
            now apply chat_fix_returns in Hf
        | Hf : fix_static_issues env _ _ _ = (Raise _, _) |- _ => discriminate Hf
        end.
Qed.

Lemma while_loop_returns (fuel : nat) :
  forall (code : string) (st st' : Machine) (e : exn),
    while_loop env fuel file_name task code st <> Some (Raise e, st').
Proof.
  induction fuel as [|fuel IH]; intros code st st' e; simpl;
    destruct (fix_attempts (self st) <? max_fix_attempts (self st)); try discriminate.
  destruct (iteration env file_name task code st) as [[[code1|r1]|e1] st1] eqn:Hit.
  - apply IH.
  - discriminate.
  - now apply iteration_returns in Hit.
Qed.

End LoopExtras.

Lemma AriaAgent_chat_text (backend : nat -> string -> res (option string)) (n : nat)
    (prompt : string) :
  exists s, AriaAgent_chat backend n prompt = Ret (ChatStr s).
Proof. unfold AriaAgent_chat. destruct (backend n prompt) as [[s|]|e]; eauto. Qed.

Lemma perfect_loop_total (env : Env) (f : file_info) (task : string) (st : Machine) :
  exists out st', perfect_loop env f task st = Some (out, st')
                  /\ run_summary (fi_filename f) (entered st) out st'.
Proof.
  rewrite perfect_loop_unfold.
  apply (while_loop_runs env (fi_filename f) task (budget (entered st))
           (fi_content f) (entered st) (le_n _)).
Qed.

(** X14. A result with the status [perfect] holds a content that the
    parser accepts, on which the static analysis finds no issue and the
    security scan no pattern, and it carries a test count and the mark
    [clean], after fewer than [max_fix_attempts] fixes.  A result with
    the status [best_effort] carries neither a test count nor an
    execution time nor a security mark, and its iteration count is the
    whole budget. *)
Theorem perfect_means_gates_passed (env : Env) (f : file_info) (task : string)
    (st st' : Machine) (r : loop_result) :
  perfect_loop env f task st = Some (Ret r, st') ->
  (status r = perfect ->
     ast_parse env (content r) = Parsed
     /\ static_analysis env (content r) = []
     /\ security_scan (content r) = []
     /\ is_Some (tests_passed r)
     /\ security r = Some "clean"
     /\ 0 <= iterations r < max_fix_attempts (self st))
  /\ (status r = best_effort ->
        tests_passed r = None /\ execution_time r = None /\ security r = None
        /\ iterations r = Z.max 0 (max_fix_attempts (self st))).
Proof.
  intros Hrun.
  destruct (perfect_loop_total env f task st)
    as (out & st1 & Hrun1 & _ & _ & Hle & (gs & tail & _ & Ha & _) & Hr & _).
  rewrite Hrun in Hrun1. injection Hrun1 as <- <-.
  destruct (Hr r eq_refl) as (_ & Hi & Hb & Hp). simpl in Ha, Hle, Hb, Hp.
  rewrite perfect_loop_unfold in Hrun.
  destruct (while_loop_results env (fi_filename f) task _ _ _ _ _ Hrun) as [Hperf Hbest].
  split.
  - intros Hs. destruct (Hperf Hs) as (H1 & H2 & H3 & H4 & H5). destruct (Hp Hs) as [Hlt _].
    repeat split; try assumption; lia.
  - intros Hs. destruct (Hbest Hs) as (H1 & H2 & H3). specialize (Hb Hs).
    repeat split; try assumption. lia.
Qed.

Lemma perfect_means_gates_passed_witness :
  ast_parse calm "def inc(x): return x + 1" = Parsed
  /\ security_scan "def inc(x): return x + 1" = [].
Proof.
  destruct (perfect_loop calm tidy_file "add one" (fresh false)) as [[[r|e] st']|] eqn:Hrun;
    [| vm_compute in Hrun; discriminate | vm_compute in Hrun; discriminate].
  pose proof Hrun as Hvalue. vm_compute in Hvalue. injection Hvalue as Hvalue _.
  destruct (proj1 (perfect_means_gates_passed calm tidy_file "add one" (fresh false) st' r Hrun))
    as (Hp & _ & Hs & _); [now rewrite <- Hvalue |].
  rewrite <- Hvalue in Hp, Hs. split; [exact Hp | exact Hs].
Defined.

(** X15. With [AriaAgent] as the agent (its [chat] answers with a text
    whatever becomes of the model), a parser that raises nothing but
    [SyntaxError] and texts that can be written to a temporary file,
    [perfect_loop] never raises: it returns a result, [perfect] or
    [best_effort], and the same holds of every single fix request. *)
Theorem perfect_loop_never_raises (env : Env) (backend : nat -> string -> res (option string))
    (f : file_info) (task : string) (st : Machine) :
  agent_chat env = AriaAgent_chat backend ->
  (forall code e, ast_parse env code <> RaisesOther e) ->
  (forall text, write_error env text = None) ->
  (exists r st', perfect_loop env f task st = Some (Ret r, st'))
  /\ (forall code errors runtime_errors failures vulnerabilities fixer w,
        fixer ∈ chat_fixers env code errors runtime_errors task failures vulnerabilities ->
        exists s w', fixer w = (Ret s, w')).
Proof.
  intros Hagent Hparse Hwrite.
  assert (Hchat : forall n prompt, exists s, agent_chat env n prompt = Ret (ChatStr s))
    by (intros n prompt; rewrite Hagent; apply AriaAgent_chat_text).
  split.
  - destruct (perfect_loop_total env f task st) as ([r|e] & st' & Hrun & _); [eauto |].
    rewrite perfect_loop_unfold in Hrun.
    now apply (while_loop_returns env (fi_filename f) task Hchat Hparse Hwrite) in Hrun.
  - intros code errors runtime_errors failures vulnerabilities fixer w Hin.
    unfold chat_fixers in Hin.
    repeat (apply elem_of_cons in Hin as [-> | Hin]); [| | | | now apply elem_of_nil in Hin];
      match goal with
      | |- exists s w', ?fx w = _ =>
          destruct (fx w) as [[s|e] w'] eqn:Hfix; [eauto |];
          now apply (chat_fix_returns env Hchat) in Hfix
      end.
Qed.

Lemma perfect_loop_never_raises_witness :
  exists r st', perfect_loop offline sample_file "add one" (fresh false) = Some (Ret r, st').
Proof.
  apply (proj1 (perfect_loop_never_raises offline (fun _ _ => Raise nim_timed_out)
                  sample_file "add one" (fresh false) eq_refl
                  ltac:(intros code e; unfold offline; simpl;
                        destruct (String.eqb code "def f(x): return x+"); discriminate)
                  ltac:(reflexivity))).
Defined.

(** ** The phases around the loop *)

Lemma run_perfect_loop_summary (env : Env) (f : file_info) (task : string) (st : Machine) :
  exists out st',
    run_perfect_loop env f task st = (out, st')
    /\ run_summary (fi_filename f) (entered st) out st'.
Proof.
  unfold run_perfect_loop.
  destruct (perfect_loop_total env f task st) as (out & st' & -> & Hsum). eauto.
Qed.

Lemma perfect_files_results (env : Env) (task : string) (l : list file_info) :
  forall (st st' : Machine) (out : list loop_result),
    perfect_files env l task st = (Ret out, st') ->
    Forall2 (fun f r => filename r = fi_filename f
                        /\ 0 <= iterations r <= Z.max 0 (max_fix_attempts (self st))
                        /\ (status r = best_effort -> tests_passed r = None)) l out
    /\ max_fix_attempts (self st') = max_fix_attempts (self st)
    /\ docker_client (self st') = docker_client (self st).
Proof.
  induction l as [|f l IH]; intros st st' out; simpl.
  - intros [= <- <-]. repeat split. constructor.
  - unfold bind.
    destruct (run_perfect_loop_summary env f task st)
      as (out1 & st1 & Hloop & Hd & Hm & Hle & (gs & tail & _ & Ha & _) & Hr & _).
    rewrite Hloop.
    destruct out1 as [r|e]; [| discriminate].
    destruct (perfect_files env l task st1) as [[others|e] st2] eqn:Hrest; [| discriminate].
    intros [= <- <-].
    destruct (IH _ _ _ Hrest) as (Hall & Hm2 & Hd2).
    destruct (Hr r eq_refl) as (Hname & Hi & _).
    assert (Hbest : status r = best_effort -> tests_passed r = None).
    { unfold run_perfect_loop in Hloop.
      destruct (perfect_loop env f task st) as [run|] eqn:Hrun.
      - subst run. rewrite perfect_loop_unfold in Hrun.
        intros Hs.
        now destruct (proj2 (while_loop_results env (fi_filename f) task _ _ _ _ _ Hrun) Hs).
      - discriminate. }
    simpl in *. repeat split.
    + constructor; [split; [exact Hname | split; [lia | exact Hbest]] |].
      eapply Forall2_impl; [exact Hall |]. intros f' r' (Hn & Hr' & Hb'). simpl in Hr'.
      rewrite Hm in Hr'. now repeat split.
    + congruence.
    + congruence.
Qed.

(** X16. [generate_perfect_code] runs the loop on the files one after the
    other on the same loop object.  When all runs return, there is one
    result for each file, in the same order and under the same name; the
    counter is reset for each file, so every result stays within the
    whole budget, however many fixes the files before it used; and the
    budget and the choice of back end are as before. *)
Theorem perfect_files_keep_names (env : Env) (task : string) (l : list file_info)
    (st st' : Machine) (out : list loop_result) :
  perfect_files env l task st = (Ret out, st') ->
  map filename out = map fi_filename l
  /\ Forall (fun r => 0 <= iterations r <= Z.max 0 (max_fix_attempts (self st))) out
  /\ max_fix_attempts (self st') = max_fix_attempts (self st)
  /\ docker_client (self st') = docker_client (self st).
Proof.
  intros Hrun. destruct (perfect_files_results env task l st st' out Hrun) as (Hall & Hm & Hd).
  repeat split; try assumption.
  - clear Hrun. induction Hall as [|f r l' out' [Hn _] _ IH]; [reflexivity |].
    simpl. now rewrite Hn, IH.
  - clear Hrun. induction Hall as [|f r l' out' (_ & Hi & _) _ IH]; constructor; assumption.
Qed.

Lemma perfect_files_keep_names_witness :
  map filename (match (perfect_files stubborn [sample_file; sample_file] "add one"
                         (fresh false)).1 with
                | Ret out => out
                | Raise _ => []
                end) = ["f.py"; "f.py"].
Proof.
  destruct (perfect_files stubborn [sample_file; sample_file] "add one" (fresh false))
    as [[out|e] st'] eqn:Hrun; [| vm_compute in Hrun; discriminate].
  exact (proj1 (perfect_files_keep_names stubborn "add one" [sample_file; sample_file]
                  (fresh false) st' out Hrun)).
Defined.

(** *** The optimisation pass *)

Lemma optimize_performance_results (env : Env) (l : list loop_result) :
  forall (w w' : World) (out : list artifact),
    optimize_performance env l w = (Ret out, w') ->
    Forall2 (optimized_from env) l out
    /\ prompts w' = prompts w ++ map (fun r => optimize_prompt (content r)) l
    /\ files w' = files w.
Proof.
  induction l as [|r l IH]; intros w w' out; simpl.
  - intros [= <- <-]. repeat split; [constructor | now rewrite app_nil_r].
  - unfold bind at 1. rewrite chat_run.
    destruct (agent_chat env (clock w) (optimize_prompt (content r))) as [v|e] eqn:Hchat;
      [| discriminate].
    unfold bind at 1.
    destruct v as [s|d|]; simpl; [| | discriminate].
    + unfold bind.
      match goal with
      | |- context [optimize_performance env l ?w1] =>
          destruct (optimize_performance env l w1) as [[others|e] w2] eqn:Hrest; [| discriminate];
          destruct (IH _ _ _ Hrest) as (Hall & Hp & Hf)
      end.
      intros [= <- <-]. simpl in *. repeat split; [| now rewrite Hp, <- app_assoc | exact Hf].
      constructor; [| exact Hall].
      unfold optimized_from, same_verdicts. simpl. repeat split.
      exists (clock w). now rewrite Hchat.
    + unfold bind.
      match goal with
      | |- context [optimize_performance env l ?w1] =>
          destruct (optimize_performance env l w1) as [[others|e] w2] eqn:Hrest; [| discriminate];
          destruct (IH _ _ _ Hrest) as (Hall & Hp & Hf)
      end.
      intros [= <- <-]. simpl in *. repeat split; [| now rewrite Hp, <- app_assoc | exact Hf].
      constructor; [| exact Hall].
      unfold optimized_from, same_verdicts. simpl. repeat split.
      exists (clock w). now rewrite Hchat.
Qed.

(** X17. When [optimize_performance] returns, there is one file for each
    that went in, in the same order, marked [optimized]; its content is
    what the model answered to the request (the old content when the
    answer is a mapping without [response]), and its name, status,
    iterations, [tests_passed], [execution_time] and [security] are those
    the loop recorded for the old content: no gate is run on the new
    one.  One request is sent for each file and no file is touched. *)
Theorem optimize_performance_keeps_verdicts (env : Env) (l : list loop_result)
    (w w' : World) (out : list artifact) :
  optimize_performance env l w = (Ret out, w') ->
  Forall2 (optimized_from env) l out
  /\ length out = length l
  /\ Forall (fun f => optimized f = true) out
  /\ prompts w' = prompts w ++ map (fun r => optimize_prompt (content r)) l
  /\ files w' = files w.
Proof.
  intros Hrun. destruct (optimize_performance_results env l w w' out Hrun) as (Hall & Hp & Hf).
  split; [exact Hall |]. split; [symmetry; eapply Forall2_length; exact Hall |].
  split; [| now split].
  clear Hrun Hp. induction Hall as [|r f l' out' (_ & Ho & _) _ IH]; constructor; assumption.
Qed.

Lemma optimize_performance_keeps_verdicts_witness :
  exists f w', optimize_performance stubborn [spent_result] empty_world = (Ret [f], w')
               /\ status (art f) = best_effort /\ optimized f = true.
Proof.
  destruct (optimize_performance stubborn [spent_result] empty_world) as [[out|e] w'] eqn:Hrun;
    [| vm_compute in Hrun; discriminate].
  destruct (optimize_performance_keeps_verdicts stubborn [spent_result] empty_world w' out Hrun)
    as (Hall & _).
  inversion Hall as [|r f l' out' ((_ & Hs & _) & Ho & _) Hrest]; subst.
  inversion Hrest; subst. exists f, w'. repeat split; assumption.
Defined.

(** *** The review *)

Lemma review_file_result (env : Env)
    (client : option (nat -> string -> res trinity_response)) (f g : artifact) (w w' : World) :
  review_file env client f w = (Ret g, w') ->
  reviewed_from f g /\ files w' = files w.
Proof.
  unfold review_file, bind at 1.
  destruct (get_trinity_review client (info_of (art f)) w) as [[report|e] w1] eqn:Hreview;
    [| discriminate].
  assert (Hw1 : files w1 = files w).
  { unfold get_trinity_review in Hreview. destruct client; [| now injection Hreview as _ <-].
    now injection Hreview as _ <-. }
  unfold bind at 1, aria_analyzes_trinity_suggestions. cbn [review_of available suggestions].
  destruct (report_available report) eqn:Hav; cbn [negb].
  - case_bool_decide as Hnone.
    + unfold ret, bind. cbn [implement_suggestions].
      intros [= <- <-]. split; [| exact Hw1].
      unfold reviewed_from, same_verdicts. cbn. repeat split.
      eexists _, _. repeat split; try reflexivity; [apply Forall_nil_2 | congruence].
    + cbv zeta. unfold bind at 1. rewrite chat_run.
      match goal with
      | |- context [agent_chat env (clock w1) ?p] =>
          destruct (agent_chat env (clock w1) p) as [aria_response|e]; [| discriminate]
      end.
      unfold ret at 1. cbv beta iota.
      destruct (parse_decisions_lists (report_suggestions report) aria_response)
        as (Ha & _ & Hi).
      destruct (decisions_name_suggestions (report_suggestions report)
                  (verdict_lines aria_response) ([], [])) as [Hfrom _];
        [constructor | constructor |].
      rewrite <- Ha in Hfrom.
      destruct (implement_suggestions (parse_decisions (report_suggestions report) aria_response))
        eqn:Himpl.
      * unfold bind at 1.
        match goal with
        | |- context [apply_trinity_suggestions env ?c ?a ?w2] =>
            destruct (apply_trinity_suggestions env c a w2) as [[code|e] w3] eqn:Happly;
              [| discriminate];
            assert (Hw3 : files w3 = files w1)
        end.
        { unfold apply_trinity_suggestions in Happly.
          case_bool_decide; [now injection Happly as _ <- |].
          cbv zeta in Happly. unfold bind in Happly. rewrite chat_run in Happly.
          match type of Happly with
          | context [agent_chat env ?n ?p] => destruct (agent_chat env n p) as [[s|d|]|e]
          end; try discriminate; now injection Happly as _ <-. }
        unfold ret. intros [= <- <-]. split; [| now rewrite Hw3].
        unfold reviewed_from, same_verdicts. cbn. repeat split.
        eexists _, _. repeat split; try reflexivity; [exact Hfrom | | congruence].
        rewrite Himpl. discriminate.
      * unfold ret, bind. intros [= <- <-]. split; [| now simpl].
        unfold reviewed_from, same_verdicts. cbn. repeat split.
        eexists _, _. repeat split; try reflexivity; [exact Hfrom | congruence].
  - unfold ret, bind. cbn [implement_suggestions].
    intros [= <- <-]. split; [| exact Hw1].
    unfold reviewed_from, same_verdicts. cbn. repeat split.
    eexists _, _. repeat split; try reflexivity; [apply Forall_nil_2 |].
    intros _. unfold unreviewed. destruct f as [[] ? ? ? ?]. reflexivity.
Qed.

Lemma trinity_code_review_results (env : Env)
    (client : option (nat -> string -> res trinity_response)) (l : list artifact) :
  forall (w w' : World) (out : list artifact),
    trinity_code_review env client l w = (Ret out, w') ->
    Forall2 reviewed_from l out /\ files w' = files w.
Proof.
  induction l as [|f l IH]; intros w w' out; simpl.
  - intros [= <- <-]. split; [constructor | reflexivity].
  - unfold bind at 1.
    destruct (review_file env client f w) as [[g|e] w1] eqn:Hfile; [| discriminate].
    destruct (review_file_result env client f g w w1 Hfile) as [Hg Hw1].
    unfold bind.
    destruct (trinity_code_review env client l w1) as [[others|e] w2] eqn:Hrest; [| discriminate].
    destruct (IH _ _ _ Hrest) as [Hall Hw2].
    intros [= <- <-]. split; [now constructor | congruence].
Qed.

Lemma review_without_client (env : Env) (l : list artifact) (w : World) :
  trinity_code_review env None l w = (Ret (map (unreviewed (unavailable None)) l), w).
Proof.
  induction l as [|f l IH]; [reflexivity |].
  simpl. unfold bind at 1. unfold review_file, bind, get_trinity_review, ret. simpl.
  rewrite IH. unfold unreviewed. destruct f as [[] ? ? ? ?]. reflexivity.
Qed.

(** X18. [AriaAgent] keeps its consultant under [_trinity_client], so the
    review finds no [trinity_client]: for such an agent
    [trinity_code_review] asks nobody and changes nothing in the world;
    every file comes back with its content and keys, a review that is
    not [available], a decision that implements nothing, and
    [trinity_reviewed] set all the same. *)
Theorem review_is_skipped_for_AriaAgent (env : Env) (execute : W code_result)
    (workspace : string) (l : list artifact) (w : World) :
  trinity_code_review env (trinity_client (AriaAgent env execute workspace)) l w
  = (Ret (map (unreviewed (unavailable None)) l), w)
  /\ Forall (fun g => trinity_reviewed g = true
                      /\ (report_available <$> art_review g) = Some false)
       (map (unreviewed (unavailable None)) l)
  /\ map (fun g => content (art g)) (map (unreviewed (unavailable None)) l)
     = map (fun f => content (art f)) l.
Proof.
  split; [apply review_without_client |]. split.
  - apply Forall_forall. intros g Hin. apply list_elem_of_fmap in Hin as (f & -> & _).
    now split.
  - rewrite map_map. reflexivity.
Qed.

(** X19. When [trinity_code_review] returns, there is one file for each
    that went in, in the same order, with [trinity_reviewed] set and its
    name, status, iterations, test and security keys and [optimized] flag
    as before.  Its approved suggestions are suggestions of its review;
    its content is the old one unless the decision says to implement,
    and when the review is not available (no consultant, or the
    consultation or the parsing of its answer raised) nothing but the
    review and the standard decision is added.  No file of the world is
    touched. *)
Theorem trinity_code_review_keeps (env : Env)
    (client : option (nat -> string -> res trinity_response)) (l : list artifact)
    (w w' : World) (out : list artifact) :
  trinity_code_review env client l w = (Ret out, w') ->
  Forall2 reviewed_from l out
  /\ length out = length l
  /\ Forall (fun g => trinity_reviewed g = true) out
  /\ files w' = files w.
Proof.
  intros Hrun. destruct (trinity_code_review_results env client l w w' out Hrun) as [Hall Hf].
  split; [exact Hall |]. split; [symmetry; eapply Forall2_length; exact Hall |].
  split; [| exact Hf].
  clear Hrun. induction Hall as [|f g l' out' (_ & _ & Ht & _) _ IH]; constructor; assumption.
Qed.

Lemma trinity_code_review_keeps_witness :
  exists g w',
    trinity_code_review calm (Some unreachable)
      [{| art := spent_result; optimized := true; art_review := None; art_decision := None;
          trinity_reviewed := false |}] empty_world = (Ret [g], w')
    /\ content (art g) = content spent_result /\ trinity_reviewed g = true.
Proof.
  destruct (trinity_code_review calm (Some unreachable)
              [{| art := spent_result; optimized := true; art_review := None;
                  art_decision := None; trinity_reviewed := false |}] empty_world)
    as [[out|e] w'] eqn:Hrun; [| vm_compute in Hrun; discriminate].
  destruct (trinity_code_review_keeps calm (Some unreachable) _ empty_world w' out Hrun)
    as (Hall & _).
  inversion Hall as [|f g l' out' Hg Hrest]; subst. inversion Hrest; subst.
  exists g, w'. split; [reflexivity |].
  destruct Hg as (_ & _ & Ht & report & d & Hrep & _ & _ & _ & Hun).
  assert (Hav : report_available report = false).
  { vm_compute in Hrun. injection Hrun as <- _. simpl in Hrep. now injection Hrep as <-. }
  rewrite (Hun Hav). split; reflexivity.
Defined.

(** *** [generate_perfect_code] *)

Lemma integration_phase_files (env : Env) (l out : list loop_result) (w w' : World) :
  integration_phase env l w = (Ret out, w') -> out = l.
Proof.
  unfold integration_phase. case_bool_decide; [| now intros [= <- _]].
  unfold bind. destruct (test_integration env l w) as [[r|e] w1]; [| discriminate].
  destruct (negb (integration_success r)); now intros [= <- _].
Qed.

(** The run up to the loop. *)
Lemma generate_perfect_code_phases (env : Env) (aria_agent : Agent) (task : string)
    (st st' : Machine) (out : generation) :
  generate_perfect_code env aria_agent task st = (Ret out, st') ->
  exists p w1,
    code_task aria_agent task (world st) = (Ret p, w1)
    /\ ((plan_status p <> "plan_ready" /\ out = PlanNotReady p
         /\ st' = {| self := self st; calls := calls st; world := w1 |})
        \/ (plan_status p = "plan_ready"
            /\ exists c w2,
                 execute_plan aria_agent w1 = (Ret c, w2)
                 /\ ((nothing_created c = true /\ out = NoCodeGenerated
                      /\ st' = {| self := self st; calls := calls st; world := w2 |})
                     \/ (nothing_created c = false
                         /\ exists perfect st2 optimized_files w3 reviewed_files w4,
                              perfect_files env (files_of (workspace_path aria_agent) c (files w2))
                                task {| self := self st; calls := calls st; world := w2 |}
                              = (Ret perfect, st2)
                              /\ optimize_performance env perfect w3
                                 = (Ret optimized_files, w4)
                              /\ trinity_code_review env (trinity_client aria_agent)
                                   optimized_files w4
                                 = (Ret reviewed_files, world st')
                              /\ out = Generated
                                   {| gen_status := "perfect";
                                      gen_files := reviewed_files;
                                      gen_metrics :=
                                        verified_metrics (final_verification reviewed_files);
                                      guarantee := guarantee_text;
                                      gen_execution_time := None;
                                      test_coverage :=
                                        coverage (final_verification reviewed_files);
                                      gen_trinity_reviewed := true |})))).
Proof.
  unfold generate_perfect_code. intros Hrun.
  unfold bind at 1, lift at 1 in Hrun.
  destruct (code_task aria_agent task (world st)) as [[p|e] w1]; [| discriminate].
  exists p, w1. split; [reflexivity |].
  destruct (String.eqb (plan_status p) "plan_ready") eqn:Hready; cbn [negb] in Hrun.
  - apply String.eqb_eq in Hready. right. split; [exact Hready |].
    unfold bind at 1, lift at 1 in Hrun. cbn [world self calls] in Hrun.
    destruct (execute_plan aria_agent w1) as [[c|e] w2]; [| discriminate].
    exists c, w2. split; [reflexivity |].
    destruct (nothing_created c) eqn:Hnothing.
    + left. unfold ret in Hrun. now injection Hrun as <- <-.
    + right. split; [reflexivity |].
      unfold bind at 1 in Hrun. cbv beta iota in Hrun.
      unfold bind at 1 in Hrun. cbn [world] in Hrun.
      match type of Hrun with
      | context [perfect_files env ?l task ?s] =>
          destruct (perfect_files env l task s) as [[perfect|e] st2] eqn:Hloop; [| discriminate]
      end.
      unfold bind at 1, lift at 1 in Hrun.
      destruct (integration_phase env perfect (world st2)) as [[perfect'|e] w3] eqn:Hint;
        [| discriminate].
      apply integration_phase_files in Hint as ->.
      unfold bind at 1, lift at 1 in Hrun. cbn [world self calls] in Hrun.
      destruct (optimize_performance env perfect w3) as [[optimized_files|e] w4] eqn:Hopt;
        [| discriminate].
      unfold bind at 1, lift at 1 in Hrun. cbn [world self calls] in Hrun.
      destruct (trinity_code_review env (trinity_client aria_agent) optimized_files w4)
        as [[reviewed_files|e] w5] eqn:Hrev; [| discriminate].
      unfold ret in Hrun. injection Hrun as <- <-. cbn [world].
      exists perfect, st2, optimized_files, w3, reviewed_files, w4. now repeat split.
  - apply String.eqb_neq in Hready. left. split; [exact Hready |].
    unfold ret in Hrun. now injection Hrun as <- <-.
Qed.






(** X21. [AriaAgent.code_task] reports [plan_ready] whatever the model
    answers, so with an [AriaAgent] the first early exit of
    [generate_perfect_code] is never taken; with any agent, a run that
    takes it returns the plan as it is, and a run that ends in
    [No code generated] has not entered the loop: the loop object and
    the record of its calls are as before, and so are they after a plan
    that was not ready. *)
Theorem plan_of_AriaAgent_is_ready (env : Env) (aria_agent : Agent) (task : string)
    (st st' : Machine) (out : generation) :
  generate_perfect_code env aria_agent task st = (Ret out, st') ->
  (forall p, out = PlanNotReady p ->
     plan_status p <> "plan_ready"
     /\ code_task aria_agent task (world st) = (Ret p, world st')
     /\ self st' = self st /\ calls st' = calls st)
  /\ (out = NoCodeGenerated -> self st' = self st /\ calls st' = calls st)
  /\ (forall execute workspace,
        aria_agent = AriaAgent env execute workspace -> forall p, out <> PlanNotReady p).
Proof.
  intros Hrun.
  destruct (generate_perfect_code_phases env aria_agent task st st' out Hrun)
    as (p & w1 & Htask & [(Hnot & -> & ->) | (Hready & c & w2 & _ & [(_ & -> & ->) | Hgen])]).
  - split; [| split].
    + intros p' [= <-]. now repeat split.
    + discriminate.
    + intros execute workspace -> p' _. apply Hnot.
      unfold AriaAgent, AriaAgent_code_task in Htask. cbn [code_task] in Htask.
      unfold bind in Htask. rewrite chat_run in Htask.
      match type of Htask with
      | context [agent_chat env ?n ?q] => destruct (agent_chat env n q)
      end; [| discriminate].
      now injection Htask as <- _.
  - split; [| split]; [discriminate | now split | discriminate].
  - destruct Hgen as (_ & perfect & st2 & optimized_files & w3 & reviewed_files & w4
                      & _ & _ & _ & ->).
    split; [| split]; discriminate.
Qed.

Lemma plan_of_AriaAgent_is_ready_witness :
  exists out st',
    generate_perfect_code stubborn hopeful "add one" (fresh false) = (Ret out, st')
    /\ out <> PlanNotReady {| plan_status := "plan_ready"; plan_text := "def f(x): return x+" |}.
Proof.
  destruct (generate_perfect_code stubborn hopeful "add one" (fresh false))
    as [[out|e] st'] eqn:Hrun; [| vm_compute in Hrun; discriminate].
  exists out, st'. split; [reflexivity |].
  exact (proj2 (proj2 (plan_of_AriaAgent_is_ready stubborn hopeful "add one" (fresh false)
                         st' out Hrun)) _ _ eq_refl _).
Defined.

Lemma files_to_process_missing (workspace : string) (names : list string)
    (fs : gmap string string) :
  (forall name, name ∈ names -> fs !! path_join workspace name = None) ->
  files_to_process workspace names fs = [].
Proof.
  induction names as [|name names IH]; intros Hmissing; [reflexivity |].
  simpl. rewrite (Hmissing name (list_elem_of_here _ _)).
  apply IH. intros name' Hin. apply Hmissing. now apply list_elem_of_further.
Qed.

(** X22. Names of created files that are not in the workspace are
    passed over without a word.  When the plan names files and none of
    them is there, [generate_perfect_code] still returns the status
    ["perfect"]: no file, no call of the loop or of the model, and a
    coverage of ["100%"] with [all_tested] set. *)
Theorem missing_files_are_dropped (env : Env) (aria_agent : Agent) (task : string)
    (st : Machine) (p : plan) (w1 w2 : World) (names : list string) :
  code_task aria_agent task (world st) = (Ret p, w1) ->
  plan_status p = "plan_ready" ->
  execute_plan aria_agent w1 = (Ret {| files_created := Some (Names names) |}, w2) ->
  names <> [] ->
  (forall name, name ∈ names ->
     files w2 !! path_join (workspace_path aria_agent) name = None) ->
  exists g,
    generate_perfect_code env aria_agent task st
    = (Ret (Generated g), {| self := self st; calls := calls st; world := w2 |})
    /\ gen_status g = "perfect" /\ gen_files g = []
    /\ total_files (gen_metrics g) = 0
    /\ all_tested (gen_metrics g) = true /\ test_coverage g = "100%".
Proof.
  intros Htask Hready Hexecute Hnames Hmissing.
  eexists. split.
  - unfold generate_perfect_code. unfold bind at 1, lift at 1. rewrite Htask, Hready.
    rewrite String.eqb_refl. cbn [negb].
    unfold bind at 1, lift at 1. cbn [world self calls]. rewrite Hexecute.
    unfold nothing_created. cbn [files_created].
    rewrite bool_decide_eq_false_2 by exact Hnames.
    unfold bind at 1. cbv beta iota. unfold files_of. cbn [files_created world].
    rewrite (files_to_process_missing _ _ _ Hmissing).
    reflexivity.
  - now repeat split.
Qed.

Lemma missing_files_are_dropped_witness :
  exists g st',
    generate_perfect_code calm forgetful "add one" (fresh false) = (Ret (Generated g), st')
    /\ gen_status g = "perfect" /\ gen_files g = [] /\ test_coverage g = "100%".
Proof.
  destruct (missing_files_are_dropped calm forgetful "add one" (fresh false)
              {| plan_status := "plan_ready"; plan_text := sample_tests |}
              (AriaAgent_code_task calm "add one" empty_world).2
              (AriaAgent_code_task calm "add one" empty_world).2
              ["a.py"; "b.py"] eq_refl eq_refl eq_refl)
    as (g & Hrun & Hstatus & Hfiles & _ & _ & Hcoverage).
  - discriminate.
  - intros name _. reflexivity.
  - exists g. eexists. split; [exact Hrun |]. now repeat split.
Defined.

Lemma get_trinity_review_returns
    (client : option (nat -> string -> res trinity_response)) (f : file_info) (w : World) :
  exists report w', get_trinity_review client f w = (Ret report, w').
Proof.
  unfold get_trinity_review. destruct client; eexists _, _; reflexivity.
Qed.


Section LaterPhases.

Variable env : Env.
Hypothesis chat_answers_text : forall n prompt, exists s, agent_chat env n prompt = Ret (ChatStr s).

Lemma optimize_performance_returns (l : list loop_result) :
  forall w, exists out w', optimize_performance env l w = (Ret out, w').
Proof.
  induction l as [|r l IH]; intros w; simpl; [eexists _, _; reflexivity |].
  unfold bind at 1. rewrite chat_run.
  destruct (chat_answers_text (clock w) (optimize_prompt (content r))) as [s ->].
  unfold bind at 1. simpl. unfold bind.
  match goal with
  | |- context [optimize_performance env l ?w1] =>
      destruct (IH w1) as (out & w' & ->)
  end.
  eexists _, _. reflexivity.
Qed.

Lemma apply_trinity_suggestions_returns (code : string) (approved : list (gmap string string))
    (w : World) :
  exists s w', apply_trinity_suggestions env code approved w = (Ret s, w').
Proof.
  unfold apply_trinity_suggestions. case_bool_decide; [eexists _, _; reflexivity |].
  cbv zeta. unfold bind. rewrite chat_run.
  match goal with
  | |- context [agent_chat env (clock w) ?p] =>
      destruct (chat_answers_text (clock w) p) as [s ->]
  end.
  eexists _, _. reflexivity.
Qed.

Lemma review_file_returns (client : option (nat -> string -> res trinity_response))
    (f : artifact) (w : World) :
  exists g w', review_file env client f w = (Ret g, w').
Proof.
  unfold review_file, bind at 1.
  destruct (get_trinity_review_returns client (info_of (art f)) w) as (report & w1 & ->).
  unfold bind at 1, aria_analyzes_trinity_suggestions. cbn [review_of available suggestions].
  destruct (report_available report); cbn [negb];
    [case_bool_decide |]; try (unfold ret, bind; cbn; eexists _, _; reflexivity).
  cbv zeta. unfold bind at 1. rewrite chat_run.
  match goal with
  | |- context [agent_chat env (clock w1) ?p] =>
      destruct (chat_answers_text (clock w1) p) as [s ->]
  end.
  unfold ret at 1. cbv beta iota. unfold bind at 1.
  destruct (implement_suggestions _).
  - match goal with
    | |- context [apply_trinity_suggestions env ?c ?a ?w2] =>
        destruct (apply_trinity_suggestions_returns c a w2) as (code & w3 & ->)
    end.
    eexists _, _. reflexivity.
  - eexists _, _. reflexivity.
Qed.

Lemma trinity_code_review_returns (client : option (nat -> string -> res trinity_response))
    (l : list artifact) :
  forall w, exists out w', trinity_code_review env client l w = (Ret out, w').
Proof.
  induction l as [|f l IH]; intros w; simpl; [eexists _, _; reflexivity |].
  unfold bind at 1. destruct (review_file_returns client f w) as (g & w1 & ->).
  unfold bind. destruct (IH w1) as (out & w' & ->). eexists _, _. reflexivity.
Qed.

End LaterPhases.

(** X24. With an agent whose [chat] answers every request with a text,
    as [AriaAgent]'s does whatever becomes of the model, the
    optimisation pass and the review return for every list of files,
    with or without a consultant and whatever the consultant does, and
    with one file for each that went in. *)
Theorem later_phases_return (env : Env) (backend : nat -> string -> res (option string))
    (client : option (nat -> string -> res trinity_response)) (l : list loop_result)
    (w : World) :
  agent_chat env = AriaAgent_chat backend ->
  exists optimized_files w1 reviewed_files w2,
    optimize_performance env l w = (Ret optimized_files, w1)
    /\ trinity_code_review env client optimized_files w1 = (Ret reviewed_files, w2)
    /\ length reviewed_files = length l.
Proof.
  intros Hagent.
  assert (Hchat : forall n prompt, exists s, agent_chat env n prompt = Ret (ChatStr s))
    by (intros n prompt; rewrite Hagent; apply AriaAgent_chat_text).
  destruct (optimize_performance_returns env Hchat l w) as (optimized_files & w1 & Hopt).
  destruct (trinity_code_review_returns env Hchat client optimized_files w1)
    as (reviewed_files & w2 & Hrev).
  exists optimized_files, w1, reviewed_files, w2. split; [exact Hopt |]. split; [exact Hrev |].
  apply optimize_performance_results in Hopt as (Hopt & _).
  apply trinity_code_review_results in Hrev as (Hrev & _).
  apply Forall2_length in Hopt, Hrev. congruence.
Qed.

Lemma later_phases_return_witness :
  exists optimized_files w1 reviewed_files w2,
    optimize_performance offline [spent_result] empty_world = (Ret optimized_files, w1)
    /\ trinity_code_review offline (Some unreachable) optimized_files w1
       = (Ret reviewed_files, w2)
    /\ length reviewed_files = 1%nat.
Proof.
  exact (later_phases_return offline (fun _ _ => Raise nim_timed_out) (Some unreachable)
           [spent_result] empty_world eq_refl).
Defined.
